(** * http-kit: the request-dispatch pipeline of [src/main.js]

    A shallow embedding of [createApiServer] and [send].  The handler that
    [createApiServer] returns is an [async] function over two mutable
    objects, the incoming request and the outgoing response; it is embedded
    as a computation in a state monad with four ways to finish (fall
    through, [return], [throw], or wait on a promise that never settles).
    The collaborators the source [require]s ([url], [cookie],
    [jsonwebtoken], [ajv]) and the built-in [JSON.parse] are a type class
    the development is parametric in. *)

From Stdlib Require Import ZArith String Ascii List Bool Lia DecimalString.
From stdpp Require Import base option gmap strings list.

Local Open Scope string_scope.
Local Open Scope Z_scope.

(** ** JavaScript values used by the handler *)

Module Js.

(** An exception value: the constructor name and the message. *)
Inductive error : Type := Error (name message : string).

Definition TypeError (m : string) : error := Error "TypeError" m.
Definition SyntaxError (m : string) : error := Error "SyntaxError" m.

(** What [JSON.parse] produces and [JSON.stringify] consumes. *)
Local Unset Elimination Schemes.
Inductive Json : Type :=
| JNull
| JBool (b : bool)
| JNum (n : Z)
| JStr (s : string)
| JArr (items : list Json)
| JObj (fields : list (string * Json)).
Local Set Elimination Schemes.

(** Strings are sequences of code units below 256.  [Buffer.byteLength]
    of a string counts its UTF-8 bytes: one for a unit below 128, two for
    the others. *)
Fixpoint byteLength (s : string) : Z :=
  match s with
  | EmptyString => 0
  | String c r => (if (nat_of_ascii c <? 128)%nat then 1 else 2) + byteLength r
  end.

(** A [Buffer] is a sequence of bytes; its byte length is its length. *)
Definition Buffer : Type := string.

Definition Buffer_byteLength (b : Buffer) : Z := Z.of_nat (String.length b).

Definition Buffer_concat (parts : list Buffer) : Buffer :=
  fold_right String.append EmptyString parts.

Definition dquote : string := String (ascii_of_nat 34) EmptyString.
Definition backslash : string := String (ascii_of_nat 92) EmptyString.

Definition hex_digit (n : nat) : ascii :=
  if (n <? 10)%nat then ascii_of_nat (48 + n) else ascii_of_nat (87 + n).

(** One code unit inside a JSON string literal, as [JSON.stringify]
    writes it. *)
Definition quote_unit (c : ascii) : string :=
  let n := nat_of_ascii c in
  if (n =? 34)%nat then backslash ++ dquote
  else if (n =? 92)%nat then backslash ++ backslash
  else if (n =? 8)%nat then backslash ++ "b"
  else if (n =? 9)%nat then backslash ++ "t"
  else if (n =? 10)%nat then backslash ++ "n"
  else if (n =? 12)%nat then backslash ++ "f"
  else if (n =? 13)%nat then backslash ++ "r"
  else if (n <? 32)%nat then
    backslash ++ "u00" ++ String (hex_digit (n / 16)) (String (hex_digit (n mod 16)) EmptyString)
  else String c EmptyString.

Fixpoint quote_units (s : string) : string :=
  match s with
  | EmptyString => EmptyString
  | String c r => quote_unit c ++ quote_units r
  end.

Definition quote (s : string) : string := dquote ++ quote_units s ++ dquote.

Definition string_of_Z (n : Z) : string := NilZero.string_of_int (Z.to_int n).

(** [JSON.stringify] without indentation. *)
Fixpoint stringify (j : Json) : string :=
  match j with
  | JNull => "null"
  | JBool true => "true"
  | JBool false => "false"
  | JNum n => string_of_Z n
  | JStr s => quote s
  | JArr items =>
      "[" ++
      (fix go (l : list Json) : string :=
         match l with
         | [] => EmptyString
         | x :: r => stringify x ++ match r with [] => EmptyString | _ => "," ++ go r end
         end) items
      ++ "]"
  | JObj fields =>
      "{" ++
      (fix go (l : list (string * Json)) : string :=
         match l with
         | [] => EmptyString
         | (k, x) :: r =>
             quote k ++ ":" ++ stringify x
             ++ match r with [] => EmptyString | _ => "," ++ go r end
         end) fields
      ++ "}"
  end.

(** [s.toLowerCase()] on the ASCII letters. *)
Definition lower_unit (c : ascii) : ascii :=
  let n := nat_of_ascii c in
  if ((65 <=? n) && (n <=? 90))%nat then ascii_of_nat (n + 32) else c.

Fixpoint toLowerCase (s : string) : string :=
  match s with
  | EmptyString => EmptyString
  | String c r => String (lower_unit c) (toLowerCase r)
  end.

(** ToNumber on a string of decimal digits, the only shape of a
    [Content-Length] value that Node's HTTP parser lets through to a
    handler; the empty string converts to 0 and any other string is
    taken as NaN ([None]). *)
Fixpoint digits_value (acc : Z) (s : string) : option Z :=
  match s with
  | EmptyString => Some acc
  | String c r =>
      let n := nat_of_ascii c in
      if ((48 <=? n) && (n <=? 57))%nat
      then digits_value (10 * acc + Z.of_nat (n - 48)) r
      else None
  end.

Definition string_to_number (s : string) : option Z := digits_value 0 s.

(** What is left of [s] after the prefix [p], when [s] starts with it. *)
Fixpoint strip_prefix (p s : string) : option string :=
  match p, s with
  | EmptyString, _ => Some s
  | String a p', String b s' => if Ascii.eqb a b then strip_prefix p' s' else None
  | String _ _, EmptyString => None
  end.

End Js.

(** ** The content-type test

    The regular expression of line 66 is anchored at the start of the
    input and has no flags: the text [application/json], then a greedy run
    of white space (the class backslash-s), then a semicolon or the end of
    the input.  The white-space class, restricted to code units below 256,
    is TAB, LF, VT, FF, CR, SPACE and NBSP. *)

Module ContentType.
Import Js.

Definition is_space (c : ascii) : bool :=
  let n := nat_of_ascii c in
  (((9 <=? n) && (n <=? 13)) || (n =? 32) || (n =? 160))%nat.

Fixpoint skip_spaces (s : string) : string :=
  match s with
  | EmptyString => EmptyString
  | String c r => if is_space c then skip_spaces r else s
  end.

Definition test (s : string) : bool :=
  match strip_prefix "application/json" s with
  | None => false
  | Some r =>
      match skip_spaces r with
      | EmptyString => true
      | String c _ => Ascii.eqb c ";"
      end
  end.

(** What the regular expression denotes, stated without the matcher. *)
Definition all_spaces (s : string) : Prop :=
  forall c, In c (list_ascii_of_string s) -> is_space c = true.

Definition matches (s : string) : Prop :=
  exists ws rest,
    s = "application/json" ++ ws ++ rest /\ all_spaces ws /\
    (rest = EmptyString \/ exists r, rest = String ";" r).

(** [RegExp.prototype.test] converts its argument to a string first: a
    missing header is tested as the text [undefined]. *)
Definition test_header (h : option string) : bool :=
  test (match h with Some s => s | None => "undefined" end).

End ContentType.

(** ** The outgoing response ([http.ServerResponse]) *)

Module Response.
Import Js.

Inductive hval : Type := HStr (s : string) | HNum (n : Z).

(** One response as it left the process: status line, header block, body. *)
Record written : Type := Written {
  status : Z;
  head : gmap string (string * hval);
  payload : string
}.

(** Node keeps the outgoing headers keyed by the lower-cased name, next to
    the name as it was given.  [wire] lists what [end] flushed. *)
Record t : Type := Make {
  statusCode : Z;
  headers : gmap string (string * hval);
  headersSent : bool;
  writableEnded : bool;
  wire : list written
}.

Definition fresh : t :=
  {| statusCode := 200; headers := ∅; headersSent := false;
     writableEnded := false; wire := [] |}.

Definition ERR_HTTP_HEADERS_SENT : error :=
  Error "ERR_HTTP_HEADERS_SENT" "Cannot set headers after they are sent to the client".

Definition set_statusCode (status : Z) (r : t) : t :=
  {| statusCode := status; headers := headers r; headersSent := headersSent r;
     writableEnded := writableEnded r; wire := wire r |}.

(** [response.setHeader(name, value)] throws once the header block is out. *)
Definition setHeader (name : string) (value : hval) (r : t) : error + t :=
  if headersSent r then inl ERR_HTTP_HEADERS_SENT
  else inr {| statusCode := statusCode r;
              headers := <[toLowerCase name := (name, value)]> (headers r);
              headersSent := headersSent r;
              writableEnded := writableEnded r; wire := wire r |}.

(** [response.end(data)]: flushes once; a second call writes nothing. *)
Definition end_ (data : string) (r : t) : t :=
  if writableEnded r then r
  else {| statusCode := statusCode r; headers := headers r;
          headersSent := true; writableEnded := true;
          wire := wire r ++ [Written (statusCode r) (headers r) data] |}.

(** [send(response, status, message)], lines 134-143.  The result is the
    response after the call and the exception the call threw, if any; the
    assignment to [statusCode] stays when a later [setHeader] throws. *)
Definition send (response : t) (status : Z) (message : Json) : t * option error :=
  let response := set_statusCode status response in
  let data := stringify message in
  match setHeader "Content-Type" (HStr "application/json; charset=utf-8") response with
  | inl e => (response, Some e)
  | inr response =>
      match setHeader "Content-Length" (HNum (byteLength data)) response with
      | inl e => (response, Some e)
      | inr response => (end_ data response, None)
      end
  end.

End Response.

(** ** The incoming request ([http.IncomingMessage]) *)

Module Request.
Import Js.

(** What the request stream delivers once listeners are attached. *)
Inductive stream_event : Type :=
| Data (part : Buffer)
| End
| Fail (e : error).

(** [method], [url], [headers] and [incoming] come with the request;
    [pathname], [query], [session] and [body] are the properties the
    handler assigns.  Header names are lower-cased by Node.  An [incoming]
    list that runs out before [End] or [Fail] is a peer that stops
    sending. *)
Record t : Type := Make {
  method : string;
  url : string;
  headers : gmap string string;
  incoming : list stream_event;
  pathname : option string;
  query : option Json;
  session : option Json;
  body : option Json
}.

Definition arrive (method url : string) (headers : gmap string string)
    (incoming : list stream_event) : t :=
  {| method := method; url := url; headers := headers; incoming := incoming;
     pathname := None; query := None; session := None; body := None |}.

Definition set_location (p : string) (q : Json) (r : t) : t :=
  {| method := method r; url := url r; headers := headers r; incoming := incoming r;
     pathname := Some p; query := Some q; session := session r; body := body r |}.

Definition set_session (s : Json) (r : t) : t :=
  {| method := method r; url := url r; headers := headers r; incoming := incoming r;
     pathname := pathname r; query := query r; session := Some s; body := body r |}.

Definition set_body (b : Json) (r : t) : t :=
  {| method := method r; url := url r; headers := headers r; incoming := incoming r;
     pathname := pathname r; query := query r; session := session r; body := Some b |}.

End Request.

(** The [services] object handed to [createApiServer]. *)
Record Services : Type := { jwtSecret : option string }.

(** ** Route descriptors *)

Module Route.
Import Js.

(** How the promise of an [async] delegate ends. *)
Inductive settled : Type :=
| Fulfilled
| Rejected (e : error)
| Forever.

(** [prepare] and [respond]: they may change the request and the response
    they are given. *)
Definition delegate : Type :=
  Request.t -> Response.t -> Services -> settled * Request.t * Response.t.

(** The values a route module may store under [limit]: a byte count, or one
    of the falsy values that are not numbers.  A truthy value that is not a
    number is no byte count and has no constructor. *)
Inductive limit_value : Type :=
| limit_undefined
| limit_null
| limit_false
| limit_empty_string
| limit_NaN
| limit_number (n : Z).

(** [authenticate] and [json] hold the truthiness of the property;
    [accept] is [None] when the property is [undefined]; [headers] is the
    plain object of the documentation, as its entries. *)
Record t : Type := Make {
  respond : option delegate;
  authenticate : bool;
  headers : option (list (string * string));
  json : bool;
  accept : option Json;
  limit : limit_value;
  validate : option Json;
  prepare : option delegate
}.

Definition set_limit (l : limit_value) (r : t) : t :=
  {| respond := respond r; authenticate := authenticate r; headers := headers r;
     json := json r; accept := accept r; limit := l; validate := validate r;
     prepare := prepare r |}.

End Route.

(** The object of lines 112-116 that the compiled schema is applied to. *)
Record Data : Type := {
  data_query : option Js.Json;
  data_headers : gmap string string;
  data_body : option Js.Json
}.

(** ** Collaborators

    The modules the source [require]s and the run-time facts the handler
    depends on.  An exception is a left injection. *)
Class Platform : Type := {
  (** [url.parse(u, true)]: the [pathname] and the decoded [query]. *)
  url_parse : string -> string * Js.Json;
  (** [cookie.parse]. *)
  cookie_parse : string -> gmap string string;
  (** [jwt.verify(token, secret)]: the claims, or the exception thrown
      for a bad signature, an expired or a malformed token. *)
  jwt_verify : string -> option string -> Js.error + Js.Json;
  (** [JSON.parse] applied to a buffer. *)
  JSON_parse : Js.Buffer -> Js.error + Js.Json;
  (** [ajv.compile] of an object schema whose [properties] is the route's
      [validate]. *)
  ajv_compile : option Js.Json -> Data -> bool;
  (** Whether [request.destroy(err)] emits [error] on the request itself
      (newer Node) or only on its socket (older Node). *)
  destroy_emits_error : bool
}.

(** ** The handler as a computation *)

Import Js.

(** What an observer of one request sees, in order. *)
Inductive event : Type :=
| Sending (status : Z) (message : Json)   (* the handler calls [send] *)
| Listening                               (* [data], [end], [error] listeners attached *)
| Pushed (part : Buffer)                  (* [parts.push(part)] *)
| Destroyed (e : error)                   (* [request.destroy(e)] *)
| Called (delegate : string)              (* [route.prepare] or [route.respond] invoked *)
| Logged (e : error)                      (* [console.error(e)] *)
| Uncaught (e : error).                   (* thrown out of an event listener *)

Record world : Type := World {
  request : Request.t;
  response : Response.t;
  trace : list event
}.

(** How a block of the [async] function finishes: it falls through with a
    value, executes [return], throws, or waits on a promise that never
    settles. *)
Inductive signal (A : Type) : Type :=
| Next (a : A)
| Return
| Throw (e : error)
| Suspend.

Arguments Next {A} a.
Arguments Return {A}.
Arguments Throw {A} e.
Arguments Suspend {A}.

Definition M (A : Type) : Type := world -> signal A * world.

#[export] Instance M_ret : MRet M := fun A a w => (Next a, w).

#[export] Instance M_bind : MBind M := fun A B f m w =>
  match m w with
  | (Next a, w') => f a w'
  | (Return, w') => (Return, w')
  | (Throw e, w') => (Throw e, w')
  | (Suspend, w') => (Suspend, w')
  end.

Definition throw {A} (e : error) : M A := fun w => (Throw e, w).

Definition suspend {A} : M A := fun w => (Suspend, w).

(** [return m]: evaluate [m], then leave the handler. *)
Definition return_ {A} (m : M unit) : M A := fun w =>
  match m w with
  | (Next _, w') => (Return, w')
  | (Return, w') => (Return, w')
  | (Throw e, w') => (Throw e, w')
  | (Suspend, w') => (Suspend, w')
  end.

(** [try { m } catch (error) { h error }]. *)
Definition try_catch {A} (m : M A) (h : error -> M A) : M A := fun w =>
  match m w with
  | (Throw e, w') => h e w'
  | r => r
  end.

(** A call into a collaborator that may throw. *)
Definition call {A} (r : error + A) : M A :=
  match r with inl e => throw e | inr a => mret a end.

Definition get_request : M Request.t := fun w => (Next (request w), w).

Definition get_response : M Response.t := fun w => (Next (response w), w).

Definition modify_request (f : Request.t -> Request.t) : M unit := fun w =>
  (Next tt, {| request := f (request w); response := response w; trace := trace w |}).

Definition emit (e : event) : M unit := fun w =>
  (Next tt, {| request := request w; response := response w; trace := trace w ++ [e] |}).

(** [send(response, status, message)] on the response of this request. *)
Definition send (status : Z) (message : Json) : M unit := fun w =>
  let '(r, thrown) := Response.send (response w) status message in
  let w' := {| request := request w; response := r;
               trace := trace w ++ [Sending status message] |} in
  match thrown with
  | None => (Next tt, w')
  | Some e => (Throw e, w')
  end.

(** [response.setHeader(name, value)] on the response of this request. *)
Definition setHeader (name : string) (value : option string) : M unit := fun w =>
  match value with
  | None =>
      (Throw (Error "ERR_HTTP_INVALID_HEADER_VALUE" "Invalid value for header"), w)
  | Some v =>
      match Response.setHeader name (Response.HStr v) (response w) with
      | inl e => (Throw e, w)
      | inr r => (Next tt, {| request := request w; response := r; trace := trace w |})
      end
  end.

(** [await delegate(request, response, services)]. *)
Definition await (name : string) (d : Route.delegate) (services : Services) : M unit :=
  fun w =>
    let '(s, req, res) := d (request w) (response w) services in
    let w' := {| request := req; response := res; trace := trace w ++ [Called name] |} in
    match s with
    | Route.Fulfilled => (Next tt, w')
    | Route.Rejected e => (Throw e, w')
    | Route.Forever => (Suspend, w')
    end.

(** The body of an event listener: an exception it throws is not seen by
    the suspended handler; it reaches the event loop uncaught and the
    promise the handler waits on is left pending. *)
Definition listener {A} (m : M A) : M A := fun w =>
  match m w with
  | (Throw e, w') => (emit (Uncaught e) ;; suspend) w'
  | r => r
  end.

(** [for (const key of object)] on a plain object: such an object has no
    iterator, the statement throws before its first iteration. *)
Definition for_of_object (name : string) (object : list (string * string))
    (body : string -> M unit) : M unit :=
  throw (TypeError (name ++ " is not iterable")).

(** [object[key]] on the entries of a plain object. *)
Fixpoint property (key : string) (object : list (string * string)) : option string :=
  match object with
  | [] => None
  | (k, v) :: rest => if String.eqb k key then Some v else property key rest
  end.

(** The messages of the failure responses. *)
Definition failure (message : string) : Json := JObj [("failure", JStr message)].

(** [route.limit || 1048576], line 72: the left operand when it is
    truthy, which for these values means a number other than 0. *)
Definition limit_truthy (l : Route.limit_value) : bool :=
  match l with
  | Route.limit_number n => negb (n =? 0)
  | _ => false
  end.

Definition effective_limit (l : Route.limit_value) : Z :=
  match l with
  | Route.limit_number n => if limit_truthy l then n else 1048576
  | _ => 1048576
  end.

(** [request.headers['content-length'] > limit], line 75: the header is a
    string or [undefined], the limit a number, so both sides are converted
    to numbers and a NaN compares false. *)
Definition content_length_exceeds (header : option string) (limit : Z) : bool :=
  match header with
  | None => false
  | Some s =>
      match string_to_number s with
      | Some n => limit <? n
      | None => false
      end
  end.

(** [request.headers['cookie'] || ''], line 44. *)
Definition cookie_header (request : Request.t) : string :=
  match Request.headers request !! "cookie" with
  | Some (String c r) => String c r
  | _ => EmptyString
  end.

(** [route.json || (route.accept === undefined && request.method !== 'GET')],
    line 65. *)
Definition wants_body (route : Route.t) (request : Request.t) : bool :=
  Route.json route
  || (match Route.accept route with None => true | Some _ => false end
      && negb (String.eqb (Request.method request) "GET")).

Definition too_large : string := "Content was too large for this request.".

Section Dispatcher.

Context {platform : Platform}.

Variable routes : gmap string Route.t.
Variable validators : gmap string (Data -> bool).
Variable services : Services.

(** Lines 43-55. *)
Definition authenticate (route : Route.t) : M unit :=
  if Route.authenticate route then
    request ← get_request;
    let cookies := cookie_parse (cookie_header request) in
    match cookies !! "token" with
    | None | Some EmptyString => return_ (send 403 (failure "Forbidden."))
    | Some token =>
        try_catch
          (session ← call (jwt_verify token (jwtSecret services));
           modify_request (Request.set_session session))
          (fun error => return_ (send 403 (failure "Forbidden.")))
    end
  else mret tt.

(** Lines 58-62. *)
Definition set_headers (route : Route.t) : M unit :=
  match Route.headers route with
  | Some headers =>
      for_of_object "route.headers" headers
        (fun key => setHeader key (property key headers))
  | None => mret tt
  end.

(** The promise of lines 79-99, run against what the stream delivers:
    [size] and [parts] are the variables of lines 71 and 73.  A destroyed
    stream delivers nothing more; the promise is then rejected by the
    [error] listener, or left pending when no [error] is emitted. *)
Fixpoint receive (limit size : Z) (parts : list Buffer)
    (incoming : list Request.stream_event) : M Json :=
  match incoming with
  | [] => suspend
  | Request.Data part :: rest =>
      let size := size + Buffer_byteLength part in
      if limit <? size then
        let e := Error "Error" too_large in
        listener (send 413 (failure too_large) ;; emit (Destroyed e)) ;;
        if destroy_emits_error then throw e else suspend
      else
        listener (emit (Pushed part)) ;;
        receive limit size (parts ++ [part]) rest
  | Request.End :: _ => listener (call (JSON_parse (Buffer_concat parts)))
  | Request.Fail e :: _ => throw e
  end.

(** Lines 70-102: the [try] that reads and parses the body. *)
Definition ingest (route : Route.t) : M unit :=
  request ← get_request;
  try_catch
    (let limit := effective_limit (Route.limit route) in
     if content_length_exceeds (Request.headers request !! "content-length") limit
     then return_ (send 413 (failure too_large))
     else
       body ← (emit Listening ;; receive limit 0 [] (Request.incoming request));
       modify_request (Request.set_body body))
    (fun error => return_ (send 400 (failure "Message could not parse as JSON."))).

(** Lines 65-103. *)
Definition parse_body (route : Route.t) : M unit :=
  request ← get_request;
  if wants_body route request then
    if ContentType.test_header (Request.headers request !! "content-type") then
      return_ (send 406 (failure "Content-Type is not application/json."))
    else ingest route
  else mret tt.

(** Lines 106-109. *)
Definition prepare (route : Route.t) : M unit :=
  match Route.prepare route with
  | Some prepare =>
      await "prepare" prepare services ;;
      response ← get_response;
      if negb (Response.writableEnded response) then return_ (mret tt) else mret tt
  | None => mret tt
  end.

(** Lines 112-120. *)
Definition validate (endpoint : string) : M unit :=
  request ← get_request;
  let data :=
    {| data_query := Request.query request;
       data_headers := Request.headers request;
       data_body := Request.body request |} in
  match validators !! endpoint with
  | Some validator =>
      if negb (validator data)
      then return_ (send 400 (failure "Message is invalid."))
      else mret tt
  | None => throw (TypeError "validators[endpoint] is not a function")
  end.

(** Lines 43-123: the stages a resolved route goes through. *)
Definition stages (endpoint : string) (route : Route.t) (respond : Route.delegate) : M unit :=
  authenticate route ;;
  set_headers route ;;
  parse_body route ;;
  prepare route ;;
  validate endpoint ;;
  await "respond" respond services.

(** Lines 124-130: the outermost [catch]. *)
Definition internal_error (error : error) : M unit :=
  emit (Logged error) ;;
  response ← get_response;
  if negb (Response.writableEnded response)
  then return_ (send 500 (failure "Internal server error."))
  else mret tt.

(** Lines 25-131: the function [createApiServer] returns. *)
Definition handler : M unit :=
  try_catch
    (request ← get_request;
     let '(pathname, query) := url_parse (Request.url request) in
     modify_request (Request.set_location pathname query) ;;
     let endpoint := Request.method request ++ " " ++ pathname in
     match routes !! endpoint with
     | None => return_ (send 404 (failure "Not found."))
     | Some route =>
         match Route.respond route with
         | None => return_ (send 404 (failure "Not found."))
         | Some respond => stages endpoint route respond
         end
     end)
    internal_error.

End Dispatcher.

(** Lines 10-22: the route table merges the exports of the route files,
    a later file overwriting an earlier one on a shared key, and every
    route gets its compiled schema.  The table holds routes whose schemas
    compile. *)
Definition merge_routes (routeFiles : list (gmap string Route.t)) : gmap string Route.t :=
  foldl (fun r f => f ∪ r) ∅ routeFiles.

Definition createApiServer {platform : Platform}
    (routeFiles : list (gmap string Route.t)) (services : Services) : M unit :=
  let routes := merge_routes routeFiles in
  let validators := (fun route => ajv_compile (Route.validate route)) <$> routes in
  handler routes validators services.

(** One request served from a response nothing has touched. *)
Definition serve (h : M unit) (request : Request.t) : signal unit * world :=
  h {| request := request; response := Response.fresh; trace := [] |}.

(** ** A platform to run the handler on

    Stand-ins for the collaborators, each defined on the inputs the
    examples below use and agreeing there with the module it stands for.
    The theorems are stated for every platform. *)

Module Sample.

(** [url.parse] on a URL that is a bare path: the query is empty. *)
Definition url_parse (u : string) : string * Json := (u, JObj []).

(** [cookie.parse] on a header that is one pair [token=value], or empty. *)
Definition cookie_parse (h : string) : gmap string string :=
  match strip_prefix "token=" h with
  | Some v => {[ "token" := v ]}
  | None => ∅
  end.

(** [jwt.verify] under a secret: one token that verifies, one past its
    expiry, one signed with another key; anything else is malformed. *)
Definition jwt_verify (token : string) (secret : option string) : error + Json :=
  match secret with
  | None => inl (Error "JsonWebTokenError" "secret or public key must be provided")
  | Some _ =>
      if String.eqb token "signed.by.s3cret" then inr (JObj [("sub", JStr "alice")])
      else if String.eqb token "signed.but.expired" then inl (Error "TokenExpiredError" "jwt expired")
      else if String.eqb token "signed.by.another" then inl (Error "JsonWebTokenError" "invalid signature")
      else inl (Error "JsonWebTokenError" "jwt malformed")
  end.

(** [JSON.parse] on the texts [{}] and [null]; a lone opening brace is the
    malformed text of the examples. *)
Definition JSON_parse (b : Buffer) : error + Json :=
  if String.eqb b "{}" then inr (JObj [])
  else if String.eqb b "null" then inr JNull
  else inl (SyntaxError "Unexpected end of JSON input").

Definition has_key (k : string) (fields : list (string * Json)) : bool :=
  existsb (fun kv => String.eqb (fst kv) k) fields.

Definition has_field (k : string) (j : option Json) : bool :=
  match j with
  | Some (JObj fields) => has_key k fields
  | _ => false
  end.

(** [ajv.compile] for a [validate] that is absent, or that requires one
    property of the query: [{ query: { required: [k] } }].  The keyword
    constrains objects only. *)
Definition ajv_compile (validate : option Json) (d : Data) : bool :=
  match validate with
  | Some (JObj [(q, JObj [(r, JArr [JStr k])])]) =>
      if String.eqb q "query" && String.eqb r "required"
      then match data_query d with
           | Some (JObj fields) => has_key k fields
           | _ => true
           end
      else true
  | _ => true
  end.

#[export] Instance node (emits : bool) : Platform :=
  Build_Platform url_parse cookie_parse jwt_verify JSON_parse ajv_compile emits.

Definition services : Services := {| jwtSecret := Some "s3cret" |}.

(** [send(response, 200, { success: ':)' })] as a respond delegate. *)
Definition respond_ok : Route.delegate := fun request response _ =>
  let '(response, thrown) :=
    Response.send response 200 (JObj [("success", JStr ":)")]) in
  (match thrown with None => Route.Fulfilled | Some e => Route.Rejected e end,
   request, response).

Definition plain : Route.t :=
  {| Route.respond := Some respond_ok; Route.authenticate := false;
     Route.headers := None; Route.json := false; Route.accept := None;
     Route.limit := Route.limit_undefined; Route.validate := None;
     Route.prepare := None |}.

(** A route behind authentication, as in the documentation. *)
Definition important : Route.t :=
  {| Route.respond := Some respond_ok; Route.authenticate := true;
     Route.headers := None; Route.json := false; Route.accept := None;
     Route.limit := Route.limit_undefined; Route.validate := None;
     Route.prepare := None |}.

(** The CORS route of the documentation. *)
Definition cors : Route.t :=
  {| Route.respond := Some respond_ok; Route.authenticate := false;
     Route.headers := Some [("Access-Control-Allow-Origin", "*")];
     Route.json := false; Route.accept := None;
     Route.limit := Route.limit_undefined; Route.validate := None;
     Route.prepare := None |}.

(** A route with [limit: 10], and one with [limit: 0]. *)
Definition small : Route.t := Route.set_limit (Route.limit_number 10) plain.

Definition zero : Route.t := Route.set_limit (Route.limit_number 0) plain.

(** A [prepare] that answers 400 itself when the query has no [page], as
    the one of the documentation does for a page that is no number. *)
Definition prepare_page : Route.delegate := fun request response _ =>
  if has_field "page" (Request.query request) then (Route.Fulfilled, request, response)
  else
    let '(response, thrown) :=
      Response.send response 400 (failure "Page was not a number.") in
    (match thrown with None => Route.Fulfilled | Some e => Route.Rejected e end,
     request, response).

(** A [prepare] that touches neither the request nor the response. *)
Definition prepare_nothing : Route.delegate := fun request response _ =>
  (Route.Fulfilled, request, response).

Definition requires_page : Json :=
  JObj [("query", JObj [("required", JArr [JStr "page"])])].

Definition page : Route.t :=
  {| Route.respond := Some respond_ok; Route.authenticate := false;
     Route.headers := None; Route.json := false; Route.accept := None;
     Route.limit := Route.limit_undefined; Route.validate := Some requires_page;
     Route.prepare := Some prepare_page |}.

Definition quiet : Route.t :=
  {| Route.respond := Some respond_ok; Route.authenticate := false;
     Route.headers := None; Route.json := false; Route.accept := None;
     Route.limit := Route.limit_undefined; Route.validate := None;
     Route.prepare := Some prepare_nothing |}.

(** The exports of one route file. *)
Definition routes : gmap string Route.t :=
  {[ "GET /foo" := plain;
     "POST /items" := plain;
     "GET /important" := important;
     "GET /cors" := cors;
     "POST /small" := small;
     "POST /zero" := zero;
     "GET /page" := page;
     "GET /quiet" := quiet ]}.

(** The handler of a server built from that file, with the route table
    and the compiled schemas [createApiServer] builds for it. *)
Definition server (emits : bool) : M unit :=
  @createApiServer (node emits) [routes] services.

Definition table : gmap string Route.t := merge_routes [routes].

Definition validators : gmap string (Data -> bool) :=
  (fun route => ajv_compile (Route.validate route)) <$> table.

(** Requests. *)
Definition unknown : Request.t := Request.arrive "GET" "/bar" ∅ [].

Definition anonymous : Request.t := Request.arrive "GET" "/important" ∅ [].

Definition expired : Request.t :=
  Request.arrive "GET" "/important" {[ "cookie" := "token=signed.but.expired" ]} [].

Definition forged : Request.t :=
  Request.arrive "GET" "/important" {[ "cookie" := "token=signed.by.another" ]} [].

Definition typed_json : Request.t :=
  Request.arrive "POST" "/items" {[ "content-type" := "application/json" ]}
    [Request.Data "{}"; Request.End].

Definition typed_text : Request.t :=
  Request.arrive "POST" "/items" {[ "content-type" := "text/plain" ]}
    [Request.Data "{}"; Request.End].

Definition untyped : Request.t :=
  Request.arrive "POST" "/items" ∅ [Request.Data "{}"; Request.End].

Definition malformed : Request.t :=
  Request.arrive "POST" "/items" ∅ [Request.Data "{"; Request.End].

(** Eleven bytes announced to a route with [limit: 10]. *)
Definition declared_11 : Request.t :=
  Request.arrive "POST" "/small" {[ "content-length" := "11" ]}
    [Request.Data "{}         "; Request.End].

(** Five bytes, then six, then more, with no [Content-Length]. *)
Definition streamed_11 : Request.t :=
  Request.arrive "POST" "/small" ∅
    [Request.Data "{    "; Request.Data "     }"; Request.Data "ignored"; Request.End].

Definition to_cors : Request.t := Request.arrive "GET" "/cors" ∅ [].

Definition to_page : Request.t := Request.arrive "GET" "/page" ∅ [].

Definition to_quiet : Request.t := Request.arrive "GET" "/quiet" ∅ [].

(** What the examples report of a run: how the handler finished, what went
    out on the wire, and the trace. *)
Definition report (run : signal unit * world)
  : signal unit * list Response.written * list event :=
  (fst run, Response.wire (response (snd run)), trace (snd run)).

End Sample.

(** More routes and requests for the same platform. *)

Module Cases.

Definition to_foo : Request.t := Request.arrive "GET" "/foo" ∅ [].


Definition signed_in : Request.t :=
  Request.arrive "GET" "/important" {[ "cookie" := "token=signed.by.s3cret" ]} [].

(** A [respond] that throws before it writes anything. *)
Definition respond_throws : Route.delegate := fun request response _ =>
  (Route.Rejected (Error "Error" "boom"), request, response).

Definition broken : Route.t :=
  {| Route.respond := Some respond_throws; Route.authenticate := false;
     Route.headers := None; Route.json := false; Route.accept := None;
     Route.limit := Route.limit_undefined; Route.validate := None;
     Route.prepare := None |}.

Definition table : gmap string Route.t := {[ "GET /broken" := broken ]}.

Definition validators : gmap string (Data -> bool) :=
  (fun route => Sample.ajv_compile (Route.validate route)) <$> table.

Definition to_broken : Request.t := Request.arrive "GET" "/broken" ∅ [].

End Cases.

(** ** Vocabulary of the properties *)

(** The endpoint key of line 33. *)
Definition endpoint_of {platform : Platform} (request : Request.t) : string :=
  Request.method request ++ " " ++ fst (url_parse (Request.url request)).

(** The world in which the stages of a resolved route start: lines 28-31
    have run on an untouched response. *)
Definition located {platform : Platform} (rq : Request.t) : world :=
  {| request := Request.set_location (fst (url_parse (Request.url rq)))
                  (snd (url_parse (Request.url rq))) rq;
     response := Response.fresh;
     trace := [] |}.

(** The header block [send] leaves on a response that had no header. *)
Definition json_head (length : Z) : gmap string (string * Response.hval) :=
  {[ "content-type" := ("Content-Type", Response.HStr "application/json; charset=utf-8");
     "content-length" := ("Content-Length", Response.HNum length) ]}.

(** The text of a failure body whose message needs no escape. *)
Definition failure_text (message : string) : string :=
  "{" ++ dquote ++ "failure" ++ dquote ++ ":" ++ dquote ++ message ++ dquote ++ "}".

(** The text of the success body of the documentation's routes. *)
Definition success_text (payload : string) : string :=
  "{" ++ dquote ++ "success" ++ dquote ++ ":" ++ dquote ++ payload ++ dquote ++ "}".

(** The response object after one [send] on an untouched response. *)
Definition sent (status : Z) (message : Json) : Response.t :=
  let data := stringify message in
  {| Response.statusCode := status;
     Response.headers := json_head (byteLength data);
     Response.headersSent := true;
     Response.writableEnded := true;
     Response.wire := [Response.Written status (json_head (byteLength data)) data] |}.

(** The [token] cookie of the request. *)
Definition cookie_token {platform : Platform} (request : Request.t) : option string :=
  cookie_parse (cookie_header request) !! "token".

(** The causes for which authentication turns a request away. *)
Inductive refused {platform : Platform} (services : Services) (request : Request.t) : Prop :=
| refused_no_cookie :
    cookie_token request = None -> refused services request
| refused_empty_cookie :
    cookie_token request = Some EmptyString -> refused services request
| refused_token (token : string) (e : error) :
    cookie_token request = Some token ->
    jwt_verify token (jwtSecret services) = inl e ->
    refused services request.

(** Authentication lets the request through, with the session it leaves on
    the request. *)
Inductive cleared {platform : Platform} (services : Services) (route : Route.t)
    (request : Request.t) : option Json -> Prop :=
| cleared_open :
    Route.authenticate route = false -> cleared services route request None
| cleared_token (token : string) (claims : Json) :
    Route.authenticate route = true ->
    cookie_token request = Some token ->
    token <> EmptyString ->
    jwt_verify token (jwtSecret services) = inr claims ->
    cleared services route request (Some claims).

(** The bytes a list of chunks adds up to. *)
Definition total (chunks : list Buffer) : Z :=
  fold_right (fun part n => Buffer_byteLength part + n) 0 chunks.

(** The request with the session authentication left on it. *)
Definition with_session (session : option Json) (r : Request.t) : Request.t :=
  match session with
  | Some claims => Request.set_session claims r
  | None => r
  end.

(** A world with more events on its trace. *)
Definition logging (events : list event) (w : world) : world :=
  {| request := request w; response := response w; trace := trace w ++ events |}.

(** A world after the handler sent one failure on its untouched response. *)
Definition failed (status : Z) (message : string) (w : world) : world :=
  {| request := request w; response := sent status (failure message);
     trace := trace w ++ [Sending status (failure message)] |}.

(** The world in which body ingestion starts for a request that
    authentication let through, on a route without [headers]. *)
Definition entered {platform : Platform} (session : option Json) (rq : Request.t) : world :=
  {| request := with_session session (request (located rq));
     response := Response.fresh;
     trace := [] |}.

(** What lines 36-68 ask of a request for the [try] of line 70 to be
    entered: its endpoint resolves to a route with a [respond],
    authentication lets it through, the route declares no [headers] object
    (line 59 throws on one), the route wants a body, and the test of line 66
    does not fire. *)
Definition ingests {platform : Platform} (routes : gmap string Route.t)
    (services : Services) (rq : Request.t) (route : Route.t)
    (respond : Route.delegate) (session : option Json) : Prop :=
  routes !! endpoint_of rq = Some route
  /\ Route.respond route = Some respond
  /\ cleared services route rq session
  /\ Route.headers route = None
  /\ wants_body route rq = true
  /\ ContentType.test_header (Request.headers rq !! "content-type") = false.

(** What lines 36-65 ask of a request for the test of line 66 to be
    made: as [ingests], short of the outcome of that test. *)
Definition offers {platform : Platform} (routes : gmap string Route.t)
    (services : Services) (rq : Request.t) (route : Route.t)
    (respond : Route.delegate) (session : option Json) : Prop :=
  routes !! endpoint_of rq = Some route
  /\ Route.respond route = Some respond
  /\ cleared services route rq session
  /\ Route.headers route = None
  /\ wants_body route rq = true.

(** What lines 36-103 ask of a request for [prepare] to be reached without
    a body: as [ingests], on a route that wants no body from it. *)
Definition passes {platform : Platform} (routes : gmap string Route.t)
    (services : Services) (rq : Request.t) (route : Route.t)
    (respond : Route.delegate) (session : option Json) : Prop :=
  routes !! endpoint_of rq = Some route
  /\ Route.respond route = Some respond
  /\ cleared services route rq session
  /\ Route.headers route = None
  /\ wants_body route rq = false.

(** What holds of a response object however it is driven through
    [setHeader] and [end]: at most one response has left, and none while
    the header block is unsent. *)
Definition single (r : Response.t) : Prop :=
  (length (Response.wire r) <= 1)%nat
  /\ (Response.headersSent r = false -> Response.wire r = []).

(** A delegate that keeps it so, as any code that writes through the
    response object does. *)
Definition orderly (d : Route.delegate) : Prop :=
  forall rq res services, single res -> single (snd (d rq res services)).

(** A computation that keeps it so. *)
Definition keeps {A : Type} (m : M A) : Prop :=
  forall w, single (response w) -> single (response (snd (m w))).

(** *** Events

    [appends ok okn m]: whatever the world, [m] only adds events to the
    trace; each of them satisfies [ok], and [okn] as well when [m] falls
    through.  [stops m]: [m] never falls through. *)
Definition appends {A : Type} (ok okn : event -> Prop) (m : M A) : Prop :=
  forall w, exists events,
    trace (snd (m w)) = (trace w ++ events)%list
    /\ Forall ok events
    /\ (forall a, fst (m w) = Next a -> Forall okn events).

Definition stops {A : Type} (m : M A) : Prop :=
  forall w a, fst (m w) <> Next a.

Definition any_event (e : event) : Prop := True.

(** The events that may come before [respond] is called: anything but a
    call of [respond]; and, while the handler is still on its way to
    [respond], no [send] either. *)
Definition not_respond (e : event) : Prop := e <> Called "respond".

Definition on_the_way (e : event) : Prop :=
  match e with
  | Sending _ _ => False
  | Called delegate => delegate <> "respond"
  | _ => True
  end.

(** The events that may follow the call of [respond]: the outermost
    [catch] logging, and its 500. *)
Definition aftermath (e : event) : Prop :=
  match e with
  | Logged _ => True
  | Sending status message =>
      status = 500 /\ message = failure "Internal server error."
  | _ => False
  end.

(** The events of a run that leaves the body alone. *)
Definition unread (e : event) : Prop :=
  match e with
  | Listening | Pushed _ | Destroyed _ | Uncaught _ => False
  | _ => True
  end.

(** The statuses and messages of the [send]s written in the handler:
    lines 37, 47, 53, 67, 76, 86, 101, 119 and 128. *)
Definition answers : list (Z * string) :=
  [ (404, "Not found.");
    (403, "Forbidden.");
    (406, "Content-Type is not application/json.");
    (413, too_large);
    (400, "Message could not parse as JSON.");
    (400, "Message is invalid.");
    (500, "Internal server error.") ].

(** A [send] of the handler carries one of them as a failure body. *)
Definition failure_only (e : event) : Prop :=
  match e with
  | Sending status message =>
      exists text, In (status, text) answers /\ message = failure text
  | _ => True
  end.

(** What a pair of event predicates must allow for the [send]s of the
    handler, and for the events of reading a body, to satisfy them. *)
Definition allows_sends (ok : event -> Prop) : Prop :=
  forall status text,
    In (status, text) answers -> ok (Sending status (failure text)).

Definition allows_reading (ok okn : event -> Prop) : Prop :=
  ok Listening /\ okn Listening
  /\ (forall part, ok (Pushed part) /\ okn (Pushed part))
  /\ (forall e, ok (Destroyed e))
  /\ (forall e, ok (Uncaught e)).

(** The shape of a trace around the call of [respond]: either [respond]
    is not called at all, or it is called once, after events that are all
    [on_the_way] and before events that are all [aftermath]. *)
Definition around_respond (tr : list event) : Prop :=
  Forall not_respond tr
  \/ exists before after,
       tr = (before ++ Called "respond" :: after)%list
       /\ Forall on_the_way before
       /\ Forall aftermath after.

(** A computation that ends in the call of [respond], if it gets there. *)
Definition heads_for_respond (m : M unit) : Prop :=
  forall w, Forall on_the_way (trace w) ->
    Forall not_respond (trace (snd (m w)))
    \/ exists before,
         trace (snd (m w)) = (before ++ [Called "respond"])%list
         /\ Forall on_the_way before.

(** ** Properties *)

Lemma send_fresh (status : Z) (message : Json) (request : Request.t) (tr : list event) :
  send status message {| request := request; response := Response.fresh; trace := tr |}
  = (Next tt, {| request := request; response := sent status message;
                 trace := tr ++ [Sending status message] |}).
Proof. reflexivity. Qed.

Lemma send_after_headers (status : Z) (message : Json) (w : world) :
  Response.headersSent (response w) = true ->
  send status message w
  = (Throw Response.ERR_HTTP_HEADERS_SENT,
     {| request := request w;
        response := Response.set_statusCode status (response w);
        trace := trace w ++ [Sending status message] |}).
Proof.
  intros Hsent. unfold send, Response.send, Response.setHeader.
  cbn. rewrite Hsent. reflexivity.
Qed.

(** The failure bodies, as the text [JSON.stringify] gives them. *)
Lemma failure_text_stringify (message : string) :
  In message ["Not found."; "Forbidden."; "Content-Type is not application/json.";
              too_large; "Message could not parse as JSON."; "Message is invalid.";
              "Internal server error."] ->
  stringify (failure message) = failure_text message.
Proof.
  cbn [In]. intros Hin.
  repeat (destruct Hin as [<- | Hin]; [reflexivity |]). destruct Hin.
Qed.

(** *** The content-type test matches what the pattern denotes *)

Lemma strip_prefix_spec (p s r : string) :
  strip_prefix p s = Some r <-> s = p ++ r.
Proof.
  revert s. induction p as [| a p IH]; intros s; cbn.
  - split; [intros [= ->]; reflexivity | intros ->; reflexivity].
  - destruct s as [| b s]; [split; discriminate |].
    destruct (Ascii.eqb a b) eqn:Hab.
    + apply Ascii.eqb_eq in Hab. subst b. rewrite IH.
      split; [intros ->; reflexivity | intros [= ->]; reflexivity].
    + apply Ascii.eqb_neq in Hab.
      split; [discriminate | intros [= Heq _]; congruence].
Qed.

Lemma skip_spaces_split (r : string) :
  exists ws, r = ws ++ ContentType.skip_spaces r /\ ContentType.all_spaces ws.
Proof.
  induction r as [| c r (ws & Hsplit & Hspaces)].
  - exists EmptyString. split; [reflexivity | intros c []].
  - cbn [ContentType.skip_spaces]. destruct (ContentType.is_space c) eqn:Hc.
    + exists (String c ws). split.
      * change (String c r = String c (ws ++ ContentType.skip_spaces r)).
        f_equal. exact Hsplit.
      * intros c' [<- | Hin]; [exact Hc | apply Hspaces, Hin].
    + exists EmptyString. split; [reflexivity | intros c' []].
Qed.

Lemma skip_spaces_app (ws rest : string) :
  ContentType.all_spaces ws ->
  ContentType.skip_spaces (ws ++ rest) = ContentType.skip_spaces rest.
Proof.
  induction ws as [| c ws IH]; intros Hspaces; [reflexivity |].
  change (String c ws ++ rest) with (String c (ws ++ rest)).
  cbn [ContentType.skip_spaces].
  rewrite (Hspaces c) by (left; reflexivity).
  apply IH. intros c' Hin. apply Hspaces. right. exact Hin.
Qed.

Lemma test_matches (s : string) :
  ContentType.test s = true <-> ContentType.matches s.
Proof.
  unfold ContentType.test, ContentType.matches. split.
  - destruct (strip_prefix "application/json" s) as [r |] eqn:Hprefix;
      [| discriminate].
    apply strip_prefix_spec in Hprefix.
    destruct (skip_spaces_split r) as (ws & Hsplit & Hspaces).
    intros Htail. exists ws, (ContentType.skip_spaces r).
    split; [rewrite <- Hsplit; exact Hprefix |].
    split; [exact Hspaces |].
    destruct (ContentType.skip_spaces r) as [| c t]; [left; reflexivity |].
    right. exists t. apply Ascii.eqb_eq in Htail. subst c. reflexivity.
  - intros (ws & rest & -> & Hspaces & Htail).
    rewrite (proj2 (strip_prefix_spec "application/json" _ (ws ++ rest)) eq_refl).
    rewrite skip_spaces_app by exact Hspaces.
    destruct Htail as [-> | (r & ->)]; reflexivity.
Qed.

Section Properties.

Context {platform : Platform}.

Variable routes : gmap string Route.t.
Variable validators : gmap string (Data -> bool).
Variable services : Services.

Lemma handler_unresolved (rq : Request.t) :
  routes !! endpoint_of rq = None
  \/ (exists route, routes !! endpoint_of rq = Some route
                    /\ Route.respond route = None) ->
  serve (handler routes validators services) rq
  = (Return, {| request := request (located rq);
                response := sent 404 (failure "Not found.");
                trace := [Sending 404 (failure "Not found.")] |}).
Proof.
  intros Hroute.
  unfold serve, handler, try_catch, endpoint_of, located in *.
  unfold mbind, M_bind, get_request, modify_request.
  cbn [request response trace].
  destruct (url_parse (Request.url rq)) as [pathname query].
  cbn [fst snd] in *.
  destruct Hroute as [Hnone | (route & Hsome & Hrespond)].
  - rewrite Hnone. reflexivity.
  - rewrite Hsome, Hrespond. reflexivity.
Qed.

Lemma handler_resolved (rq : Request.t) (route : Route.t) (respond : Route.delegate) :
  routes !! endpoint_of rq = Some route ->
  Route.respond route = Some respond ->
  serve (handler routes validators services) rq
  = try_catch (stages validators services (endpoint_of rq) route respond)
      internal_error (located rq).
Proof.
  intros Hsome Hrespond.
  unfold serve, handler, endpoint_of, located in *.
  unfold try_catch at 1 2.
  unfold mbind at 1 2, M_bind at 1 2, get_request, modify_request.
  cbn [request response trace].
  destruct (url_parse (Request.url rq)) as [pathname query].
  cbn [fst snd] in *.
  rewrite Hsome, Hrespond. reflexivity.
Qed.

Lemma bind_run {A B : Type} (m : M A) (f : A -> M B) (w : world) :
  (m ≫= f) w
  = match m w with
    | (Next a, w') => f a w'
    | (Return, w') => (Return, w')
    | (Throw e, w') => (Throw e, w')
    | (Suspend, w') => (Suspend, w')
    end.
Proof. reflexivity. Qed.

Lemma return_send_fresh {A : Type} (status : Z) (message : string) (w : world) :
  response w = Response.fresh ->
  @return_ A (send status (failure message)) w = (Return, failed status message w).
Proof.
  intros Hfresh. destruct w as [rq res tr]. cbn in Hfresh. subst res.
  unfold return_. rewrite send_fresh. reflexivity.
Qed.

(** *** Authentication *)

Lemma authenticate_refused (route : Route.t) (w : world) :
  Route.authenticate route = true ->
  refused services (request w) ->
  response w = Response.fresh ->
  authenticate services route w = (Return, failed 403 "Forbidden." w).
Proof.
  intros Hauth Hrefused Hfresh.
  unfold authenticate. rewrite Hauth, bind_run. cbn [get_request].
  destruct Hrefused as [Hnone | Hempty | token e Htoken Hverify];
    unfold cookie_token in *.
  - rewrite Hnone. apply return_send_fresh, Hfresh.
  - rewrite Hempty. apply return_send_fresh, Hfresh.
  - rewrite Htoken. destruct token as [| c token'].
    + apply return_send_fresh, Hfresh.
    + unfold try_catch. rewrite bind_run, Hverify. cbn [call throw].
      apply return_send_fresh, Hfresh.
Qed.

Lemma authenticate_cleared (route : Route.t) (session : option Json) (w : world) :
  cleared services route (request w) session ->
  authenticate services route w
  = (Next tt, {| request := with_session session (request w);
                 response := response w; trace := trace w |}).
Proof.
  intros Hcleared. unfold authenticate.
  destruct Hcleared as [Hopen | token claims Hauth Htoken Hne Hverify].
  - rewrite Hopen. destruct w. reflexivity.
  - rewrite Hauth, bind_run. cbn [get_request].
    unfold cookie_token in Htoken. rewrite Htoken.
    destruct token as [| c token']; [congruence |].
    unfold try_catch. rewrite bind_run, Hverify. reflexivity.
Qed.

(** *** Route headers *)

Lemma set_headers_absent (route : Route.t) (w : world) :
  Route.headers route = None -> set_headers route w = (Next tt, w).
Proof. intros Hnone. unfold set_headers. rewrite Hnone. reflexivity. Qed.

Lemma set_headers_object (route : Route.t) (object : list (string * string)) (w : world) :
  Route.headers route = Some object ->
  set_headers route w = (Throw (TypeError "route.headers is not iterable"), w).
Proof. intros Hsome. unfold set_headers. rewrite Hsome. reflexivity. Qed.

(** *** Body ingestion *)

Lemma parse_body_skipped (route : Route.t) (w : world) :
  wants_body route (request w) = false -> parse_body route w = (Next tt, w).
Proof.
  intros Hwants. unfold parse_body. rewrite bind_run. cbn [get_request].
  rewrite Hwants. reflexivity.
Qed.

Lemma parse_body_matching (route : Route.t) (w : world) :
  wants_body route (request w) = true ->
  ContentType.test_header (Request.headers (request w) !! "content-type") = true ->
  response w = Response.fresh ->
  parse_body route w
  = (Return, failed 406 "Content-Type is not application/json." w).
Proof.
  intros Hwants Htest Hfresh. unfold parse_body. rewrite bind_run. cbn [get_request].
  rewrite Hwants, Htest. apply return_send_fresh, Hfresh.
Qed.


Lemma parse_body_streams (route : Route.t) (w : world) :
  wants_body route (request w) = true ->
  ContentType.test_header (Request.headers (request w) !! "content-type") = false ->
  content_length_exceeds (Request.headers (request w) !! "content-length")
    (effective_limit (Route.limit route)) = false ->
  parse_body route w
  = try_catch
      (body ← receive (effective_limit (Route.limit route)) 0 []
                (Request.incoming (request w));
       modify_request (Request.set_body body))
      (fun _ => return_ (send 400 (failure "Message could not parse as JSON.")))
      (logging [Listening] w).
Proof.
  intros Hwants Htest Hover. unfold parse_body. rewrite bind_run. cbn [get_request].
  rewrite Hwants, Htest. unfold ingest. rewrite bind_run. cbn [get_request].
  unfold try_catch. cbv zeta. rewrite Hover.
  reflexivity.
Qed.

Lemma total_nonneg (chunks : list Buffer) : 0 <= total chunks.
Proof.
  induction chunks as [| part chunks IH]; [reflexivity |].
  change (total (part :: chunks)) with (Buffer_byteLength part + total chunks).
  unfold Buffer_byteLength. lia.
Qed.

(** Chunks that stay within the limit are counted and buffered. *)
Lemma receive_within (limit : Z) (chunks : list Buffer) :
  forall (size : Z) (parts : list Buffer) (rest : list Request.stream_event) (w : world),
    size + total chunks <= limit ->
    receive limit size parts (map Request.Data chunks ++ rest) w
    = receive limit (size + total chunks) (parts ++ chunks) rest
        (logging (map Pushed chunks) w).
Proof.
  induction chunks as [| part chunks IH]; intros size parts rest w Hfit.
  - cbn. rewrite Z.add_0_r, app_nil_r. unfold logging. rewrite app_nil_r.
    destruct w. reflexivity.
  - change (total (part :: chunks))
      with (Buffer_byteLength part + total chunks) in *.
    cbn [map app].
    pose proof (total_nonneg chunks) as Hrest.
    cbn [receive].
    replace (limit <? size + Buffer_byteLength part) with false
      by (symmetry; apply Z.ltb_ge; lia).
    rewrite bind_run. unfold listener at 1. cbn [emit].
    rewrite IH by lia.
    rewrite <- app_assoc. cbn [app].
    replace (size + Buffer_byteLength part + total chunks)
      with (size + (Buffer_byteLength part + total chunks)) by lia.
    f_equal. unfold logging. cbn. rewrite <- app_assoc. reflexivity.
Qed.


(** *** From the route table to body ingestion *)

Lemma entered_headers (session : option Json) (rq : Request.t) :
  Request.headers (request (entered session rq)) = Request.headers rq.
Proof. destruct session; reflexivity. Qed.

Lemma entered_method (session : option Json) (rq : Request.t) :
  Request.method (request (entered session rq)) = Request.method rq.
Proof. destruct session; reflexivity. Qed.

Lemma entered_incoming (session : option Json) (rq : Request.t) :
  Request.incoming (request (entered session rq)) = Request.incoming rq.
Proof. destruct session; reflexivity. Qed.

Lemma entered_wants_body (route : Route.t) (session : option Json) (rq : Request.t) :
  wants_body route (request (entered session rq)) = wants_body route rq.
Proof. unfold wants_body. rewrite entered_method. reflexivity. Qed.

Lemma stages_reach_body (rq : Request.t) (route : Route.t) (respond : Route.delegate)
    (session : option Json) :
  cleared services route rq session ->
  Route.headers route = None ->
  stages validators services (endpoint_of rq) route respond (located rq)
  = (parse_body route ;;
     prepare services route ;;
     validate validators (endpoint_of rq) ;;
     await "respond" respond services) (entered session rq).
Proof.
  intros Hcleared Hheaders. unfold stages.
  rewrite bind_run, (authenticate_cleared route session).
  - rewrite bind_run, set_headers_absent by assumption. reflexivity.
  - destruct Hcleared as [Hopen | token claims Hauth Htoken Hne Hverify].
    + apply cleared_open, Hopen.
    + apply (cleared_token _ _ _ token claims); assumption.
Qed.

(** C9.  A request whose endpoint key is not in the route table, or whose
    route has no [respond], is answered 404 with the body
    [{ failure: 'Not found.' }] and nothing else happens: the only call is
    that [send], no delegate is called, no listener is attached, and the
    request is left as lines 30-31 made it. *)
Theorem unregistered_endpoint_404 (rq : Request.t) :
  routes !! endpoint_of rq = None
  \/ (exists route, routes !! endpoint_of rq = Some route
                    /\ Route.respond route = None) ->
  let result := serve (handler routes validators services) rq in
  fst result = Return
  /\ Response.wire (response (snd result))
     = [Response.Written 404 (json_head 24) (failure_text "Not found.")]
  /\ trace (snd result) = [Sending 404 (failure "Not found.")]
  /\ request (snd result) = request (located rq).
Proof.
  intros Hroute result. subst result.
  rewrite (handler_unresolved rq Hroute).
  repeat split; reflexivity.
Qed.

Lemma refused_403 (rq : Request.t) (route : Route.t) (respond : Route.delegate) :
  routes !! endpoint_of rq = Some route ->
  Route.respond route = Some respond ->
  Route.authenticate route = true ->
  refused services rq ->
  serve (handler routes validators services) rq
  = (Return, failed 403 "Forbidden." (located rq)).
Proof.
  intros Hsome Hrespond Hauth Hrefused.
  rewrite (handler_resolved rq route respond Hsome Hrespond).
  unfold try_catch, stages. rewrite bind_run.
  rewrite authenticate_refused; try reflexivity; try assumption.
  destruct Hrefused as [Hnone | Hempty | token e Htoken Hverify].
  - apply refused_no_cookie, Hnone.
  - apply refused_empty_cookie, Hempty.
  - apply (refused_token _ _ token e); assumption.
Qed.

(** C6.  Two requests to routes that require authentication, each turned
    away for any cause (no [token] cookie, an empty one, or a token that
    [jwt.verify] rejects with whatever exception): both are answered 403
    with the body [{ failure: 'Forbidden.' }], the only thing the handler
    does is that [send] (no delegate is called), and the two response
    objects, hence what is written on the wire, are equal. *)
Theorem refused_requests_get_one_403
    (rq rq' : Request.t) (route route' : Route.t) (respond respond' : Route.delegate) :
  routes !! endpoint_of rq = Some route ->
  Route.respond route = Some respond ->
  Route.authenticate route = true ->
  refused services rq ->
  routes !! endpoint_of rq' = Some route' ->
  Route.respond route' = Some respond' ->
  Route.authenticate route' = true ->
  refused services rq' ->
  let result := serve (handler routes validators services) rq in
  let result' := serve (handler routes validators services) rq' in
  fst result = Return
  /\ Response.wire (response (snd result))
     = [Response.Written 403 (json_head 24) (failure_text "Forbidden.")]
  /\ trace (snd result) = [Sending 403 (failure "Forbidden.")]
  /\ response (snd result') = response (snd result)
  /\ trace (snd result') = trace (snd result).
Proof.
  intros Hsome Hrespond Hauth Hrefused Hsome' Hrespond' Hauth' Hrefused' result result'.
  subst result result'.
  rewrite (refused_403 rq route respond), (refused_403 rq' route' respond')
    by assumption.
  repeat split; reflexivity.
Qed.

(** C1.  A request for which the test of line 66 is made ([offers]).
    When its [Content-Type] is present and matches the pattern, the handler
    answers 406 [Content-Type is not application/json.] and does nothing
    else.  When it is present and does not match, the handler goes on to
    the [try] of line 70 and the stages after it, with no 406: the same as
    when the header is absent.  The test lacks its negation. *)
Theorem content_type_test_is_inverted
    (rq : Request.t) (route : Route.t) (respond : Route.delegate)
    (session : option Json) :
  offers routes services rq route respond session ->
  let result := serve (handler routes validators services) rq in
  let proceeds :=
    try_catch
      (ingest route ;;
       prepare services route ;;
       validate validators (endpoint_of rq) ;;
       await "respond" respond services)
      internal_error (entered session rq) in
  match Request.headers rq !! "content-type" with
  | Some declared =>
      (ContentType.matches declared ->
       result = (Return,
                 failed 406 "Content-Type is not application/json."
                   (entered session rq)))
      /\ (~ ContentType.matches declared -> result = proceeds)
  | None => result = proceeds
  end.
Proof.
  intros (Hsome & Hrespond & Hcleared & Hheaders & Hwants) result proceeds.
  assert (Hgate : result
                  = try_catch
                      (parse_body route ;;
                       prepare services route ;;
                       validate validators (endpoint_of rq) ;;
                       await "respond" respond services)
                      internal_error (entered session rq)).
  { subst result.
    rewrite (handler_resolved rq route respond Hsome Hrespond).
    unfold try_catch.
    rewrite (stages_reach_body rq route respond session Hcleared Hheaders).
    reflexivity. }
  assert (Hopen : ContentType.test_header (Request.headers rq !! "content-type") = false ->
                  result = proceeds).
  { intros Htest. rewrite Hgate. subst proceeds. unfold try_catch.
    rewrite !bind_run. unfold parse_body at 1. rewrite bind_run. cbn [get_request].
    rewrite entered_wants_body, Hwants, entered_headers, Htest. reflexivity. }
  destruct (Request.headers rq !! "content-type") as [declared |] eqn:Hdeclared.
  - split.
    + intros Hmatches. rewrite Hgate. unfold try_catch.
      rewrite bind_run, parse_body_matching; try reflexivity.
      * rewrite entered_wants_body. exact Hwants.
      * rewrite entered_headers, Hdeclared. apply test_matches, Hmatches.
    + intros Hnot. apply Hopen. unfold ContentType.test_header.
      destruct (ContentType.test declared) eqn:Htest; [| reflexivity].
      exfalso. apply Hnot, test_matches, Htest.
  - apply Hopen. reflexivity.
Qed.




Lemma receive_end_throws (limit size : Z) (parts : list Buffer)
    (rest : list Request.stream_event) (e : error) (w : world) :
  JSON_parse (Buffer_concat parts) = inl e ->
  receive limit size parts (Request.End :: rest) w = (Suspend, logging [Uncaught e] w).
Proof.
  intros Hparse. cbn [receive]. unfold listener. rewrite Hparse. reflexivity.
Qed.

Lemma malformed_json_run
    (rq : Request.t) (route : Route.t) (respond : Route.delegate)
    (session : option Json) (chunks : list Buffer)
    (rest : list Request.stream_event) (e : error) :
  ingests routes services rq route respond session ->
  content_length_exceeds (Request.headers rq !! "content-length")
    (effective_limit (Route.limit route)) = false ->
  Request.incoming rq = (map Request.Data chunks ++ Request.End :: rest)%list ->
  total chunks <= effective_limit (Route.limit route) ->
  JSON_parse (Buffer_concat chunks) = inl e ->
  serve (handler routes validators services) rq
  = (Suspend,
     {| request := request (entered session rq);
        response := Response.fresh;
        trace := (Listening :: map Pushed chunks ++ [Uncaught e])%list |}).
Proof.
  intros (Hsome & Hrespond & Hcleared & Hheaders & Hwants & Htest) Hdeclared
    Hincoming Hfit Hparse.
  rewrite (handler_resolved rq route respond Hsome Hrespond).
  unfold try_catch at 1.
  rewrite (stages_reach_body rq route respond session Hcleared Hheaders).
  rewrite bind_run, parse_body_streams.
  - unfold try_catch. rewrite bind_run.
    rewrite entered_incoming, Hincoming.
    rewrite receive_within by (rewrite Z.add_0_l; exact Hfit).
    rewrite receive_end_throws with (e := e) by exact Hparse.
    unfold logging. cbn [request response trace entered app].
    reflexivity.
  - rewrite entered_wants_body. exact Hwants.
  - rewrite entered_headers. exact Htest.
  - rewrite entered_headers. exact Hdeclared.
Qed.

(** C2.  A request that reaches the streaming of lines 79-99 ([ingests],
    and its [Content-Length] is absent or within the limit), whose body
    arrives whole within the limit and is text that [JSON.parse] rejects:
    the exception is thrown inside the [end] listener, where neither the
    promise nor the [try] of line 70 sees it.  It reaches the event loop
    uncaught, the promise stays pending, the handler never resumes, and
    nothing is written: no 400 is sent. *)
Theorem malformed_json_is_left_unanswered
    (rq : Request.t) (route : Route.t) (respond : Route.delegate)
    (session : option Json) (chunks : list Buffer)
    (rest : list Request.stream_event) (e : error) :
  ingests routes services rq route respond session ->
  content_length_exceeds (Request.headers rq !! "content-length")
    (effective_limit (Route.limit route)) = false ->
  Request.incoming rq = (map Request.Data chunks ++ Request.End :: rest)%list ->
  total chunks <= effective_limit (Route.limit route) ->
  JSON_parse (Buffer_concat chunks) = inl e ->
  let result := serve (handler routes validators services) rq in
  fst result = Suspend
  /\ Response.wire (response (snd result)) = []
  /\ trace (snd result) = (Listening :: map Pushed chunks ++ [Uncaught e])%list.
Proof.
  intros Hingests Hdeclared Hincoming Hfit Hparse result. subst result.
  rewrite (malformed_json_run rq route respond session chunks rest e)
    by assumption.
  repeat split.
Qed.

(** C5.  The same request seen as a count of responses: the handler is
    left waiting for ever, the wire carries no response at all, and no
    [prepare] or [respond] was called that could have chosen to leave the
    request unanswered. *)
Theorem malformed_json_request_gets_no_response
    (rq : Request.t) (route : Route.t) (respond : Route.delegate)
    (session : option Json) (chunks : list Buffer)
    (rest : list Request.stream_event) (e : error) :
  ingests routes services rq route respond session ->
  content_length_exceeds (Request.headers rq !! "content-length")
    (effective_limit (Route.limit route)) = false ->
  Request.incoming rq = (map Request.Data chunks ++ Request.End :: rest)%list ->
  total chunks <= effective_limit (Route.limit route) ->
  JSON_parse (Buffer_concat chunks) = inl e ->
  let result := serve (handler routes validators services) rq in
  fst result = Suspend
  /\ length (Response.wire (response (snd result))) = 0%nat
  /\ (forall delegate, ~ In (Called delegate) (trace (snd result)))
  /\ (forall status message, ~ In (Sending status message) (trace (snd result))).
Proof.
  intros Hingests Hdeclared Hincoming Hfit Hparse result. subst result.
  rewrite (malformed_json_run rq route respond session chunks rest e)
    by assumption.
  cbn [fst snd response trace].
  split; [reflexivity |]. split; [reflexivity |].
  split.
  - intros delegate [Hhead | Hin]; [discriminate |].
    apply in_app_or in Hin. destruct Hin as [Hin | [Hin | []]]; [| discriminate].
    apply in_map_iff in Hin. destruct Hin as (part & Heq & _). discriminate.
  - intros status message [Hhead | Hin]; [discriminate |].
    apply in_app_or in Hin. destruct Hin as [Hin | [Hin | []]]; [| discriminate].
    apply in_map_iff in Hin. destruct Hin as (part & Heq & _). discriminate.
Qed.

(** C3.  A request to a route that declares [headers] as an object, once
    past authentication: [for ... of] over the object throws, the outermost
    [catch] logs the TypeError and answers 500.  None of the declared
    headers is set (the header block on the wire is the one [send] builds)
    and no later stage runs. *)
Theorem declared_headers_end_in_500
    (rq : Request.t) (route : Route.t) (respond : Route.delegate)
    (session : option Json) (object : list (string * string)) :
  routes !! endpoint_of rq = Some route ->
  Route.respond route = Some respond ->
  cleared services route rq session ->
  Route.headers route = Some object ->
  let result := serve (handler routes validators services) rq in
  fst result = Return
  /\ Response.wire (response (snd result))
     = [Response.Written 500 (json_head 36) (failure_text "Internal server error.")]
  /\ trace (snd result)
     = [Logged (TypeError "route.headers is not iterable");
        Sending 500 (failure "Internal server error.")].
Proof.
  intros Hsome Hrespond Hcleared Hheaders result. subst result.
  assert (Hrun : serve (handler routes validators services) rq
                 = (Return,
                    failed 500 "Internal server error."
                      (logging [Logged (TypeError "route.headers is not iterable")]
                         (entered session rq)))).
  { rewrite (handler_resolved rq route respond Hsome Hrespond).
    unfold try_catch, stages.
    rewrite bind_run, (authenticate_cleared route session).
    - rewrite bind_run, (set_headers_object route object) by exact Hheaders.
      unfold internal_error. rewrite !bind_run. cbn [emit get_response response].
      cbn [Response.fresh Response.writableEnded negb located].
      apply (return_send_fresh 500 "Internal server error."). reflexivity.
    - destruct Hcleared as [Hopen | token claims Hauth Htoken Hne Hverify].
      + apply cleared_open, Hopen.
      + apply (cleared_token _ _ _ token claims); assumption. }
  rewrite Hrun. repeat split; reflexivity.
Qed.

(** *** Validation, where the response is still open *)

Lemma validate_rejects (endpoint : string) (validator : Data -> bool) (w : world) :
  validators !! endpoint = Some validator ->
  validator {| data_query := Request.query (request w);
               data_headers := Request.headers (request w);
               data_body := Request.body (request w) |} = false ->
  response w = Response.fresh ->
  validate validators endpoint w = (Return, failed 400 "Message is invalid." w).
Proof.
  intros Hvalidator Hrejects Hfresh. unfold validate.
  rewrite bind_run. cbn [get_request]. rewrite Hvalidator, Hrejects.
  apply return_send_fresh, Hfresh.
Qed.

Lemma validate_accepts (endpoint : string) (validator : Data -> bool) (w : world) :
  validators !! endpoint = Some validator ->
  validator {| data_query := Request.query (request w);
               data_headers := Request.headers (request w);
               data_body := Request.body (request w) |} = true ->
  validate validators endpoint w = (Next tt, w).
Proof.
  intros Hvalidator Haccepts. unfold validate.
  rewrite bind_run. cbn [get_request]. rewrite Hvalidator, Haccepts. reflexivity.
Qed.

(** Once a response is out, a rejected request gets no 400: the [send] of
    line 119 throws at its first [setHeader]. *)
Lemma validate_rejects_too_late (endpoint : string) (validator : Data -> bool) (w : world) :
  validators !! endpoint = Some validator ->
  validator {| data_query := Request.query (request w);
               data_headers := Request.headers (request w);
               data_body := Request.body (request w) |} = false ->
  Response.headersSent (response w) = true ->
  validate validators endpoint w
  = (Throw Response.ERR_HTTP_HEADERS_SENT,
     {| request := request w;
        response := Response.set_statusCode 400 (response w);
        trace := (trace w ++ [Sending 400 (failure "Message is invalid.")])%list |}).
Proof.
  intros Hvalidator Hrejects Hsent. unfold validate.
  rewrite bind_run. cbn [get_request]. rewrite Hvalidator, Hrejects.
  cbn [negb]. unfold return_. rewrite send_after_headers by exact Hsent.
  reflexivity.
Qed.

(** Line 108 as written: the handler goes on to validation exactly when
    [prepare] has ended the response, and returns when it has not. *)
Lemma prepare_continues_iff_ended (route : Route.t) (p : Route.delegate) (w : world) :
  Route.prepare route = Some p ->
  fst (fst (p (request w) (response w) services)) = Route.Fulfilled ->
  fst (prepare services route w)
  = if Response.writableEnded (snd (p (request w) (response w) services))
    then Next tt else Return.
Proof.
  intros Hprepare Hfulfilled. unfold prepare. rewrite Hprepare.
  rewrite bind_run. unfold await.
  destruct (p (request w) (response w) services) as [[settled rq'] res'].
  cbn [fst snd] in *. subst settled.
  rewrite bind_run. cbn [get_response response].
  destruct (Response.writableEnded res'); reflexivity.
Qed.

(** On a route without [prepare] and without a body to ingest, the
    compiled schema decides: a rejected request gets the 400 of line 119 and
    [respond] is not called; an accepted one goes to [respond]. *)
Lemma validation_without_prepare
    (rq : Request.t) (route : Route.t) (respond : Route.delegate)
    (session : option Json) (validator : Data -> bool) :
  passes routes services rq route respond session ->
  Route.prepare route = None ->
  validators !! endpoint_of rq = Some validator ->
  let data := {| data_query := Request.query (request (entered session rq));
                 data_headers := Request.headers (request (entered session rq));
                 data_body := Request.body (request (entered session rq)) |} in
  let result := serve (handler routes validators services) rq in
  (validator data = false ->
   result = (Return, failed 400 "Message is invalid." (entered session rq)))
  /\ (validator data = true ->
      exists events, trace (snd result) = Called "respond" :: events).
Proof.
  intros (Hsome & Hrespond & Hcleared & Hheaders & Hwants) Hprepare Hvalidator
    data result.
  assert (Hrun : result
                 = try_catch
                     (validate validators (endpoint_of rq) ;;
                      await "respond" respond services)
                     internal_error (entered session rq)).
  { subst result.
    rewrite (handler_resolved rq route respond Hsome Hrespond).
    unfold try_catch.
    rewrite (stages_reach_body rq route respond session Hcleared Hheaders).
    rewrite bind_run, parse_body_skipped
      by (rewrite entered_wants_body; exact Hwants).
    rewrite bind_run. unfold prepare. rewrite Hprepare. reflexivity. }
  rewrite Hrun. subst data. unfold try_catch. rewrite bind_run.
  split; intros Hdecision.
  - rewrite (validate_rejects _ validator) by (try reflexivity; assumption).
    reflexivity.
  - rewrite (validate_accepts _ validator) by assumption.
    unfold await. cbn [request response trace entered].
    destruct (respond _ _ services) as [[[| e |] rq'] res']; cbn [app].
    + exists []. reflexivity.
    + unfold internal_error, mbind, M_bind, emit, get_response.
      cbn [response trace request].
      destruct (negb (Response.writableEnded res')).
      * unfold return_, send. cbn [response trace request].
        destruct (Response.send res' _ _) as [r [err |]];
          eexists; reflexivity.
      * eexists. reflexivity.
    + exists []. reflexivity.
Qed.

(** C8.  A request that reaches [prepare] on a route that has one, where
    [prepare] answers the request itself (it settles with the response
    ended, as the one of the documentation does on a bad page): line 108
    lets the handler go on because the response has ended, and when the
    compiled schema rejects the request the [send] of line 119 throws at
    its first [setHeader].  The exception is logged, [respond] is not
    called, and the wire is as [prepare] left it: [Message is invalid.] is
    never written. *)
Theorem invalid_message_after_prepare_gets_no_400
    (rq : Request.t) (route : Route.t) (respond : Route.delegate)
    (session : option Json) (p : Route.delegate) (validator : Data -> bool)
    (rq' : Request.t) (res' : Response.t) :
  passes routes services rq route respond session ->
  Route.prepare route = Some p ->
  p (request (entered session rq)) Response.fresh services = (Route.Fulfilled, rq', res') ->
  Response.headersSent res' = true ->
  Response.writableEnded res' = true ->
  validators !! endpoint_of rq = Some validator ->
  validator {| data_query := Request.query rq';
               data_headers := Request.headers rq';
               data_body := Request.body rq' |} = false ->
  let result := serve (handler routes validators services) rq in
  fst result = Next tt
  /\ Response.wire (response (snd result)) = Response.wire res'
  /\ trace (snd result)
     = [Called "prepare";
        Sending 400 (failure "Message is invalid.");
        Logged Response.ERR_HTTP_HEADERS_SENT].
Proof.
  intros (Hsome & Hrespond & Hcleared & Hheaders & Hwants) Hprepare Hp Hsent Hended
    Hvalidator Hrejects result.
  assert (Hrun : result
                 = (Next tt,
                    {| request := rq';
                       response := Response.set_statusCode 400 res';
                       trace := [Called "prepare";
                                 Sending 400 (failure "Message is invalid.");
                                 Logged Response.ERR_HTTP_HEADERS_SENT] |})).
  { subst result.
    rewrite (handler_resolved rq route respond Hsome Hrespond).
    unfold try_catch.
    rewrite (stages_reach_body rq route respond session Hcleared Hheaders).
    rewrite bind_run, parse_body_skipped
      by (rewrite entered_wants_body; exact Hwants).
    rewrite bind_run. unfold prepare. rewrite Hprepare.
    rewrite bind_run. unfold await. cbn [request response trace entered] in *.
    rewrite Hp. rewrite bind_run. cbn [get_response response].
    rewrite Hended. cbn [negb mret M_ret].
    rewrite bind_run.
    rewrite (validate_rejects_too_late _ validator) by assumption.
    unfold internal_error, mbind, M_bind, emit, get_response.
    cbn [request response trace Response.set_statusCode Response.writableEnded].
    rewrite Hended. reflexivity. }
  rewrite Hrun. repeat split.
Qed.

(** *** The limit *)




(** *** At most one response leaves *)

Lemma single_send (r : Response.t) (status : Z) (message : Json) :
  single r -> single (fst (Response.send r status message)).
Proof.
  unfold single, Response.send, Response.setHeader, Response.end_,
    Response.set_statusCode.
  destruct r as [code head [|] [|] wire]; cbn -[insert toLowerCase stringify byteLength];
    intros [Hlen Hunsent]; try (split; [exact Hlen | exact Hunsent]).
  rewrite (Hunsent eq_refl). split; [cbn; lia | discriminate].
Qed.

Lemma keeps_bind {A B : Type} (m : M A) (f : A -> M B) :
  keeps m -> (forall a, keeps (f a)) -> keeps (m ≫= f).
Proof.
  intros Hm Hf w Hw. rewrite bind_run. specialize (Hm w Hw).
  destruct (m w) as [[a | | e |] w']; cbn [snd] in *; try exact Hm.
  apply Hf, Hm.
Qed.

Lemma keeps_try_catch {A : Type} (m : M A) (h : error -> M A) :
  keeps m -> (forall e, keeps (h e)) -> keeps (try_catch m h).
Proof.
  intros Hm Hh w Hw. unfold try_catch. specialize (Hm w Hw).
  destruct (m w) as [[a | | e |] w']; cbn [snd] in *; try exact Hm.
  apply Hh, Hm.
Qed.

Lemma keeps_return {A : Type} (m : M unit) : keeps m -> keeps (@return_ A m).
Proof.
  intros Hm w Hw. unfold return_. specialize (Hm w Hw).
  destruct (m w) as [[a | | e |] w']; exact Hm.
Qed.

Lemma keeps_listener {A : Type} (m : M A) : keeps m -> keeps (listener m).
Proof.
  intros Hm w Hw. unfold listener. specialize (Hm w Hw).
  destruct (m w) as [[a | | e |] w']; exact Hm.
Qed.

Lemma keeps_quiet {A : Type} (m : M A) :
  (forall w, response (snd (m w)) = response w) -> keeps m.
Proof. intros Hsame w Hw. rewrite Hsame. exact Hw. Qed.

Lemma keeps_send (status : Z) (message : Json) : keeps (send status message).
Proof.
  intros w Hw. unfold send.
  pose proof (single_send (response w) status message Hw) as Hsent.
  destruct (Response.send (response w) status message) as [r [e |]]; exact Hsent.
Qed.

Lemma keeps_await (name : string) (d : Route.delegate) :
  orderly d -> keeps (await name d services).
Proof.
  intros Hd w Hw. unfold await.
  specialize (Hd (request w) (response w) services Hw).
  destruct (d (request w) (response w) services) as [[[| e |] rq] res]; exact Hd.
Qed.

Lemma keeps_receive (limit : Z) (incoming : list Request.stream_event) :
  forall size parts, keeps (receive limit size parts incoming).
Proof.
  induction incoming as [| [part | | e] incoming IH]; intros size parts; cbn [receive].
  - apply keeps_quiet. reflexivity.
  - destruct (limit <? size + Buffer_byteLength part).
    + apply keeps_bind.
      * apply keeps_listener, keeps_bind; [apply keeps_send |].
        intros _. apply keeps_quiet. reflexivity.
      * intros _. destruct destroy_emits_error; apply keeps_quiet; reflexivity.
    + apply keeps_bind; [| intros _; apply IH].
      apply keeps_listener, keeps_quiet. reflexivity.
  - apply keeps_listener, keeps_quiet. intros w.
    destruct (JSON_parse (Buffer_concat parts)); reflexivity.
  - apply keeps_quiet. reflexivity.
Qed.

Lemma keeps_parse_body (route : Route.t) : keeps (parse_body route).
Proof.
  unfold parse_body. apply keeps_bind; [apply keeps_quiet; reflexivity |].
  intros rq. destruct (wants_body route rq); [| apply keeps_quiet; reflexivity].
  destruct (ContentType.test_header _); [apply keeps_return, keeps_send |].
  unfold ingest. apply keeps_bind; [apply keeps_quiet; reflexivity |]. intros rq'.
  apply keeps_try_catch; [| intros _; apply keeps_return, keeps_send].
  cbv zeta. destruct (content_length_exceeds _ _); [apply keeps_return, keeps_send |].
  apply keeps_bind.
  - apply keeps_bind; [apply keeps_quiet; reflexivity |].
    intros _. apply keeps_receive.
  - intros body. apply keeps_quiet. reflexivity.
Qed.

Lemma keeps_stages (endpoint : string) (route : Route.t) (respond : Route.delegate) :
  orderly respond ->
  (forall p, Route.prepare route = Some p -> orderly p) ->
  keeps (stages validators services endpoint route respond).
Proof.
  intros Hrespond Hprepare. unfold stages.
  apply keeps_bind.
  { unfold authenticate. destruct (Route.authenticate route);
      [| apply keeps_quiet; reflexivity].
    apply keeps_bind; [apply keeps_quiet; reflexivity |]. intros rq.
    destruct (cookie_parse (cookie_header rq) !! "token") as [[| c token] |];
      try apply keeps_return, keeps_send.
    apply keeps_try_catch; [| intros _; apply keeps_return, keeps_send].
    apply keeps_bind.
    - apply keeps_quiet. intros w. unfold call.
      destruct (jwt_verify _ _); reflexivity.
    - intros claims. apply keeps_quiet. reflexivity. }
  intros _. apply keeps_bind.
  { unfold set_headers. destruct (Route.headers route); apply keeps_quiet; reflexivity. }
  intros _. apply keeps_bind; [apply keeps_parse_body |].
  intros _. apply keeps_bind.
  { unfold prepare. destruct (Route.prepare route) as [p |] eqn:Hp;
      [| apply keeps_quiet; reflexivity].
    apply keeps_bind; [apply keeps_await, Hprepare; reflexivity |].
    intros _. apply keeps_bind; [apply keeps_quiet; reflexivity |].
    intros res. destruct (negb (Response.writableEnded res));
      apply keeps_quiet; reflexivity. }
  intros _. apply keeps_bind.
  { unfold validate. apply keeps_bind; [apply keeps_quiet; reflexivity |].
    intros rq. destruct (validators !! endpoint) as [validator |];
      [| apply keeps_quiet; reflexivity].
    destruct (negb (validator _)); [apply keeps_return, keeps_send |].
    apply keeps_quiet. reflexivity. }
  intros _. apply keeps_await, Hrespond.
Qed.

Lemma keeps_internal_error (e : error) : keeps (internal_error e).
Proof.
  unfold internal_error. apply keeps_bind; [apply keeps_quiet; reflexivity |].
  intros _. apply keeps_bind; [apply keeps_quiet; reflexivity |].
  intros res. destruct (negb (Response.writableEnded res));
    [apply keeps_return, keeps_send | apply keeps_quiet; reflexivity].
Qed.

(** X5.  Whatever the request and however the handler finishes, at most
    one response has been written when the delegates of the routes write
    through the response object. *)
Lemma handler_writes_at_most_once (rq : Request.t) :
  (forall key route, routes !! key = Some route ->
     (forall d, Route.respond route = Some d -> orderly d)
     /\ (forall d, Route.prepare route = Some d -> orderly d)) ->
  (length (Response.wire (response (snd (serve (handler routes validators services) rq))))
   <= 1)%nat.
Proof.
  intros Hroutes.
  assert (Hkeeps : keeps (handler routes validators services)).
  { unfold handler. apply keeps_try_catch; [| apply keeps_internal_error].
    apply keeps_bind; [apply keeps_quiet; reflexivity |]. intros r.
    destruct (url_parse (Request.url r)) as [pathname query].
    apply keeps_bind; [apply keeps_quiet; reflexivity |]. intros _.
    destruct (routes !! (Request.method r ++ " " ++ pathname)) as [route |] eqn:Hroute;
      [| apply keeps_return, keeps_send].
    destruct (Route.respond route) as [respond |] eqn:Hrespond;
      [| apply keeps_return, keeps_send].
    destruct (Hroutes _ route Hroute) as [Hr Hp].
    apply keeps_stages; [apply Hr, Hrespond | exact Hp]. }
  apply (Hkeeps {| request := rq; response := Response.fresh; trace := [] |}).
  split; [cbn; lia | reflexivity].
Qed.

End Properties.

(** ** The handler on concrete requests *)

(** C9 on [GET /bar], which no route file declares. *)
Lemma unregistered_endpoint_404_witness :
  fst (serve (Sample.server true) Sample.unknown) = Return
  /\ Response.wire (response (snd (serve (Sample.server true) Sample.unknown)))
     = [Response.Written 404 (json_head 24) (failure_text "Not found.")]
  /\ trace (snd (serve (Sample.server true) Sample.unknown))
     = [Sending 404 (failure "Not found.")]
  /\ request (snd (serve (Sample.server true) Sample.unknown))
     = request (located (platform := Sample.node true) Sample.unknown).
Proof.
  apply (unregistered_endpoint_404 (platform := Sample.node true)
           Sample.table Sample.validators Sample.services Sample.unknown).
  left. vm_compute. reflexivity.
Defined.

(** C6 on [GET /important]: once without a cookie, once with a token past
    its expiry. *)
Lemma refused_requests_get_one_403_witness :
  fst (serve (Sample.server true) Sample.anonymous) = Return
  /\ Response.wire (response (snd (serve (Sample.server true) Sample.anonymous)))
     = [Response.Written 403 (json_head 24) (failure_text "Forbidden.")]
  /\ trace (snd (serve (Sample.server true) Sample.anonymous))
     = [Sending 403 (failure "Forbidden.")]
  /\ response (snd (serve (Sample.server true) Sample.expired))
     = response (snd (serve (Sample.server true) Sample.anonymous))
  /\ trace (snd (serve (Sample.server true) Sample.expired))
     = trace (snd (serve (Sample.server true) Sample.anonymous)).
Proof.
  apply (refused_requests_get_one_403 (platform := Sample.node true)
           Sample.table Sample.validators Sample.services
           Sample.anonymous Sample.expired
           Sample.important Sample.important Sample.respond_ok Sample.respond_ok).
  - vm_compute. reflexivity.
  - reflexivity.
  - reflexivity.
  - apply refused_no_cookie. vm_compute. reflexivity.
  - vm_compute. reflexivity.
  - reflexivity.
  - reflexivity.
  - apply (refused_token _ _ "signed.but.expired" (Error "TokenExpiredError" "jwt expired")).
    + vm_compute. reflexivity.
    + reflexivity.
Defined.




(** C2 on [POST /items] with a lone opening brace as the body. *)
Lemma malformed_json_is_left_unanswered_witness :
  fst (serve (Sample.server true) Sample.malformed) = Suspend
  /\ Response.wire (response (snd (serve (Sample.server true) Sample.malformed))) = []
  /\ trace (snd (serve (Sample.server true) Sample.malformed))
     = [Listening; Pushed "{";
        Uncaught (SyntaxError "Unexpected end of JSON input")].
Proof.
  apply (malformed_json_is_left_unanswered (platform := Sample.node true)
           Sample.table Sample.validators Sample.services
           Sample.malformed Sample.plain Sample.respond_ok None ["{"] []
           (SyntaxError "Unexpected end of JSON input")).
  - split; [vm_compute; reflexivity |].
    split; [reflexivity |].
    split; [apply cleared_open; reflexivity |].
    split; [reflexivity |].
    split; [reflexivity | vm_compute; reflexivity].
  - vm_compute. reflexivity.
  - reflexivity.
  - vm_compute. discriminate.
  - reflexivity.
Defined.

(** C3 on the CORS route of the documentation. *)
Lemma declared_headers_end_in_500_witness :
  fst (serve (Sample.server true) Sample.to_cors) = Return
  /\ Response.wire (response (snd (serve (Sample.server true) Sample.to_cors)))
     = [Response.Written 500 (json_head 36) (failure_text "Internal server error.")]
  /\ trace (snd (serve (Sample.server true) Sample.to_cors))
     = [Logged (TypeError "route.headers is not iterable");
        Sending 500 (failure "Internal server error.")].
Proof.
  apply (declared_headers_end_in_500 (platform := Sample.node true)
           Sample.table Sample.validators Sample.services
           Sample.to_cors Sample.cors Sample.respond_ok None
           [("Access-Control-Allow-Origin", "*")]).
  - vm_compute. reflexivity.
  - reflexivity.
  - apply cleared_open. reflexivity.
  - reflexivity.
Defined.

(** C1 on [POST /items] declared as [text/plain]: no 406, the handler
    goes on to read the body. *)
Lemma content_type_test_is_inverted_witness :
  serve (Sample.server true) Sample.typed_text
  = try_catch
      (ingest (platform := Sample.node true) Sample.plain ;;
       prepare Sample.services Sample.plain ;;
       validate Sample.validators "POST /items" ;;
       await "respond" Sample.respond_ok Sample.services)
      internal_error
      (entered (platform := Sample.node true) None Sample.typed_text).
Proof.
  assert (Hoffers : offers (platform := Sample.node true) Sample.table Sample.services
                      Sample.typed_text Sample.plain Sample.respond_ok None).
  { split; [vm_compute; reflexivity |].
    split; [reflexivity |].
    split; [apply cleared_open; reflexivity |].
    split; reflexivity. }
  pose proof (content_type_test_is_inverted (platform := Sample.node true)
                Sample.table Sample.validators Sample.services
                Sample.typed_text Sample.plain Sample.respond_ok None Hoffers)
    as Hgate.
  cbv zeta in Hgate.
  change (Request.headers Sample.typed_text !! "content-type")
    with (Some "text/plain") in Hgate.
  destruct Hgate as [_ Hproceeds]. apply Hproceeds.
  intros Hmatches. apply test_matches in Hmatches. discriminate Hmatches.
Defined.

(** [POST /items] three times with the body [{}]: declared as
    [text/plain] it is ingested and the route responds, where the
    specification has a 406; declared as [application/json] it is answered
    406 [Content-Type is not application/json.]; with no [Content-Type] it
    is ingested. *)
Lemma content_type_examples (emits : bool) :
  Sample.report (serve (Sample.server emits) Sample.typed_text)
  = (Next tt,
     [Response.Written 200 (json_head 16) (success_text ":)")],
     [Listening; Pushed "{}"; Called "respond"])
  /\ Sample.report (serve (Sample.server emits) Sample.typed_json)
     = (Return,
        [Response.Written 406 (json_head 51)
           (failure_text "Content-Type is not application/json.")],
        [Sending 406 (failure "Content-Type is not application/json.")])
  /\ Sample.report (serve (Sample.server emits) Sample.untyped)
     = (Next tt,
        [Response.Written 200 (json_head 16) (success_text ":)")],
        [Listening; Pushed "{}"; Called "respond"]).
Proof. destruct emits; repeat split; vm_compute; reflexivity. Qed.

(** C5 on [POST /items] with a lone opening brace as the body. *)
Lemma malformed_json_request_gets_no_response_witness :
  fst (serve (Sample.server true) Sample.malformed) = Suspend
  /\ length (Response.wire (response (snd (serve (Sample.server true) Sample.malformed))))
     = 0%nat
  /\ (forall delegate,
        ~ In (Called delegate) (trace (snd (serve (Sample.server true) Sample.malformed))))
  /\ (forall status message,
        ~ In (Sending status message)
            (trace (snd (serve (Sample.server true) Sample.malformed)))).
Proof.
  apply (malformed_json_request_gets_no_response (platform := Sample.node true)
           Sample.table Sample.validators Sample.services
           Sample.malformed Sample.plain Sample.respond_ok None ["{"] []
           (SyntaxError "Unexpected end of JSON input")).
  - split; [vm_compute; reflexivity |].
    split; [reflexivity |].
    split; [apply cleared_open; reflexivity |].
    split; [reflexivity |].
    split; [reflexivity | vm_compute; reflexivity].
  - vm_compute. reflexivity.
  - reflexivity.
  - vm_compute. discriminate.
  - reflexivity.
Defined.

(** C8 on [GET /page] without a [page]: the client gets the answer of
    [prepare], not [Message is invalid.]. *)
Lemma invalid_message_after_prepare_gets_no_400_witness :
  fst (serve (Sample.server true) Sample.to_page) = Next tt
  /\ Response.wire (response (snd (serve (Sample.server true) Sample.to_page)))
     = [Response.Written 400 (json_head 36) (failure_text "Page was not a number.")]
  /\ trace (snd (serve (Sample.server true) Sample.to_page))
     = [Called "prepare";
        Sending 400 (failure "Message is invalid.");
        Logged Response.ERR_HTTP_HEADERS_SENT].
Proof.
  apply (invalid_message_after_prepare_gets_no_400 (platform := Sample.node true)
           Sample.table Sample.validators Sample.services
           Sample.to_page Sample.page Sample.respond_ok None Sample.prepare_page
           (Sample.ajv_compile (Some Sample.requires_page))
           (request (located (platform := Sample.node true) Sample.to_page))
           (sent 400 (failure "Page was not a number."))).
  - split; [vm_compute; reflexivity |].
    split; [reflexivity |].
    split; [apply cleared_open; reflexivity |].
    split; reflexivity.
  - reflexivity.
  - vm_compute. reflexivity.
  - reflexivity.
  - reflexivity.
  - vm_compute. reflexivity.
  - vm_compute. reflexivity.
Defined.

(** A [prepare] that only returns stops the dispatch: no validation, no
    [respond], no response. *)
Lemma quiet_prepare_stops_the_dispatch (emits : bool) :
  Sample.report (serve (Sample.server emits) Sample.to_quiet)
  = (Return, [], [Called "prepare"]).
Proof. destruct emits; vm_compute; reflexivity. Qed.

(** The scenarios of the specification: [GET /foo] declared with only a
    [respond] is answered by it, and eleven bytes to a route with
    [limit: 10] are answered 413 with or without a [Content-Length]. *)
Lemma scenarios (emits : bool) :
  Sample.report (serve (Sample.server emits) (Request.arrive "GET" "/foo" ∅ []))
  = (Next tt, [Response.Written 200 (json_head 16) (success_text ":)")],
     [Called "respond"])
  /\ (exists s tr, Sample.report (serve (Sample.server emits) Sample.declared_11)
                   = (s, [Response.Written 413 (json_head 53) (failure_text too_large)], tr))
  /\ (exists s tr, Sample.report (serve (Sample.server emits) Sample.streamed_11)
                   = (s, [Response.Written 413 (json_head 53) (failure_text too_large)], tr)).
Proof.
  destruct emits; (split; [| split]); try (vm_compute; reflexivity);
    eexists _, _; vm_compute; reflexivity.
Qed.

(** The three causes side by side: no cookie, a token past its expiry,
    a token signed with another key. *)
Lemma refused_alike (emits : bool) :
  Sample.report (serve (Sample.server emits) Sample.expired)
  = Sample.report (serve (Sample.server emits) Sample.anonymous)
  /\ Sample.report (serve (Sample.server emits) Sample.forged)
     = Sample.report (serve (Sample.server emits) Sample.anonymous).
Proof. destruct emits; split; vm_compute; reflexivity. Qed.

(** [limit: 0] does not close a route to bodies: two bytes pass. *)
Lemma zero_limit_accepts_a_body (emits : bool) :
  Sample.report
    (serve (Sample.server emits)
       (Request.arrive "POST" "/zero" ∅ [Request.Data "{}"; Request.End]))
  = (Next tt, [Response.Written 200 (json_head 16) (success_text ":)")],
     [Listening; Pushed "{}"; Called "respond"]).
Proof. destruct emits; vm_compute; reflexivity. Qed.

(** ** More of the code *)

(** *** The route table, lines 10-11 *)

Lemma merge_routes_snoc (files : list (gmap string Route.t)) (f : gmap string Route.t) :
  merge_routes (files ++ [f]) = f ∪ merge_routes files.
Proof. unfold merge_routes. rewrite foldl_snoc. reflexivity. Qed.

(** X1.  An entry of the merged table is the one of the last route file
    that declares its key: the files after that one do not have the key.
    A key is missing from the table only when every file lacks it. *)
Theorem merged_entry_is_the_last_declared
    (files : list (gmap string Route.t)) (key : string) :
  match merge_routes files !! key with
  | Some route =>
      exists before f after,
        files = (before ++ f :: after)%list
        /\ f !! key = Some route
        /\ Forall (fun g : gmap string Route.t => g !! key = None) after
  | None => Forall (fun g : gmap string Route.t => g !! key = None) files
  end.
Proof.
  induction files as [| f files IH] using rev_ind.
  - cbn. rewrite lookup_empty. constructor.
  - rewrite merge_routes_snoc.
    destruct (f !! key) as [route |] eqn:Hf.
    + rewrite (lookup_union_Some_l _ _ _ route Hf).
      exists files, f, []. repeat split; [exact Hf | constructor].
    + rewrite (lookup_union_r _ _ _ Hf).
      destruct (merge_routes files !! key) as [route |].
      * destruct IH as (before & g & after & -> & Hg & Hafter).
        exists before, g, (after ++ [f])%list. split.
        { rewrite <- List.app_assoc. reflexivity. }
        split; [exact Hg |].
        apply Forall_app. split; [exact Hafter |].
        constructor; [exact Hf | constructor].
      * apply Forall_app. split; [exact IH |].
        constructor; [exact Hf | constructor].
Qed.

(** *** [send], lines 134-143 *)

(** X3.  [send] on a response whose header block is unsent and that has
    not ended: nothing is thrown, the status is the given one, one more
    response is on the wire and the response has ended.  What went out
    carries the status, the text of the message as its body, a JSON
    [Content-Type] and the byte length of the body as [Content-Length],
    replacing what was set under these names in any spelling; every other
    header that was set goes out unchanged. *)
Theorem send_writes_one_json_response
    (r : Response.t) (status : Z) (message : Json) :
  Response.headersSent r = false ->
  Response.writableEnded r = false ->
  exists head,
    Response.send r status message
    = ({| Response.statusCode := status; Response.headers := head;
          Response.headersSent := true; Response.writableEnded := true;
          Response.wire :=
            (Response.wire r
             ++ [Response.Written status head (stringify message)])%list |},
       None)
    /\ head !! "content-type"
       = Some ("Content-Type", Response.HStr "application/json; charset=utf-8")
    /\ head !! "content-length"
       = Some ("Content-Length", Response.HNum (byteLength (stringify message)))
    /\ (forall name, name <> "content-type" -> name <> "content-length" ->
                     head !! name = Response.headers r !! name).
Proof.
  intros Hunsent Hopen.
  exists (<["content-length" :=
             ("Content-Length", Response.HNum (byteLength (stringify message)))]>
            (<["content-type" :=
                ("Content-Type", Response.HStr "application/json; charset=utf-8")]>
               (Response.headers r))).
  split.
  - unfold Response.send, Response.setHeader, Response.end_, Response.set_statusCode.
    cbn [Response.headersSent Response.writableEnded Response.statusCode
         Response.headers Response.wire].
    rewrite Hunsent, Hopen. reflexivity.
  - split; [| split].
    + rewrite lookup_insert_ne by discriminate. apply lookup_insert_eq.
    + apply lookup_insert_eq.
    + intros name Htype Hlength.
      rewrite lookup_insert_ne by congruence.
      apply lookup_insert_ne. congruence.
Qed.


(** *** The test of line 66 *)

(** X6.  The test of line 66 is true exactly for a [Content-Type] that is
    present and reads [application/json], then white space, then either
    nothing more or a semicolon and anything.  A missing header never
    passes it, being tested as the text [undefined]. *)
Theorem content_type_test_meaning (header : option string) :
  ContentType.test_header header = true
  <-> exists declared, header = Some declared /\ ContentType.matches declared.
Proof.
  destruct header as [declared |]; cbn [ContentType.test_header].
  - split.
    + intros Htest. exists declared. split; [reflexivity |].
      apply test_matches, Htest.
    + intros (declared' & [= <-] & Hmatches). apply test_matches, Hmatches.
  - split; [discriminate |]. intros (declared & Habsent & _). discriminate.
Qed.

Section Coverage.

Context {platform : Platform}.

Variable routes : gmap string Route.t.
Variable validators : gmap string (Data -> bool).
Variable services : Services.

(** *** The end of the body, lines 92-102 *)





(** *** Without a body, lines 112-130 *)

Lemma handler_validates
    (rq : Request.t) (route : Route.t) (respond : Route.delegate)
    (session : option Json) :
  passes routes services rq route respond session ->
  Route.prepare route = None ->
  serve (handler routes validators services) rq
  = try_catch
      (validate validators (endpoint_of rq) ;; await "respond" respond services)
      internal_error (entered session rq).
Proof.
  intros (Hsome & Hrespond & Hcleared & Hheaders & Hwants) Hprepare.
  rewrite (handler_resolved routes validators services rq route respond Hsome Hrespond).
  unfold try_catch.
  rewrite (stages_reach_body validators services rq route respond session
             Hcleared Hheaders).
  rewrite bind_run, parse_body_skipped
    by (rewrite entered_wants_body; exact Hwants).
  rewrite bind_run. unfold prepare. rewrite Hprepare. reflexivity.
Qed.

(** X9.  On a route that requires authentication, a request whose [token]
    cookie [jwt.verify] accepts goes on with the decoded claims as
    [request.session]: when the schema accepts it, [respond] is called on
    a request that carries them, next to the parsed location and the
    headers as they came, and on a response nothing has touched. *)
Theorem verified_session_reaches_respond
    (rq : Request.t) (route : Route.t) (respond : Route.delegate)
    (token : string) (claims : Json) (validator : Data -> bool) :
  routes !! endpoint_of rq = Some route ->
  Route.respond route = Some respond ->
  Route.authenticate route = true ->
  cookie_token rq = Some token ->
  token <> EmptyString ->
  jwt_verify token (jwtSecret services) = inr claims ->
  Route.headers route = None ->
  wants_body route rq = false ->
  Route.prepare route = None ->
  validators !! endpoint_of rq = Some validator ->
  validator {| data_query := Some (snd (url_parse (Request.url rq)));
               data_headers := Request.headers rq;
               data_body := Request.body rq |} = true ->
  exists w,
    serve (handler routes validators services) rq
    = try_catch (await "respond" respond services) internal_error w
    /\ Request.session (request w) = Some claims
    /\ Request.pathname (request w) = Some (fst (url_parse (Request.url rq)))
    /\ Request.query (request w) = Some (snd (url_parse (Request.url rq)))
    /\ Request.headers (request w) = Request.headers rq
    /\ response w = Response.fresh
    /\ trace w = [].
Proof.
  intros Hsome Hrespond Hauth Htoken Hne Hverify Hheaders Hwants Hprepare
    Hvalidator Haccepts.
  exists (entered (Some claims) rq).
  split; [| repeat split].
  rewrite (handler_validates rq route respond (Some claims)).
  - unfold try_catch. rewrite bind_run.
    rewrite (validate_accepts validators _ validator) by assumption.
    reflexivity.
  - split; [exact Hsome |]. split; [exact Hrespond |].
    split; [apply (cleared_token _ _ _ token claims); assumption |].
    split; assumption.
  - exact Hprepare.
Qed.

(** X10.  When [respond] rejects (or throws), what the outermost [catch]
    does depends on the response it is left with.  Not ended and header
    block unsent: the error is logged and the handler sends 500
    [Internal server error.], one more response on the wire.  Ended: the
    error is logged and nothing is written.  Header block sent but not
    ended: the [send] of line 128 throws inside the [catch], so the
    handler itself rejects and writes nothing. *)
Theorem rejected_respond_is_caught
    (rq : Request.t) (route : Route.t) (respond : Route.delegate)
    (session : option Json) (validator : Data -> bool)
    (e : error) (rq' : Request.t) (res' : Response.t) :
  passes routes services rq route respond session ->
  Route.prepare route = None ->
  validators !! endpoint_of rq = Some validator ->
  validator {| data_query := Request.query (request (entered session rq));
               data_headers := Request.headers (request (entered session rq));
               data_body := Request.body (request (entered session rq)) |} = true ->
  respond (request (entered session rq)) Response.fresh services
  = (Route.Rejected e, rq', res') ->
  let result := serve (handler routes validators services) rq in
  (Response.writableEnded res' = true ->
   result = (Next tt, {| request := rq'; response := res';
                         trace := [Called "respond"; Logged e] |}))
  /\ (Response.writableEnded res' = false -> Response.headersSent res' = true ->
      fst result = Throw Response.ERR_HTTP_HEADERS_SENT
      /\ Response.wire (response (snd result)) = Response.wire res')
  /\ (Response.writableEnded res' = false -> Response.headersSent res' = false ->
      fst result = Return
      /\ (exists head,
            Response.wire (response (snd result))
            = (Response.wire res'
               ++ [Response.Written 500 head
                     (failure_text "Internal server error.")])%list)
      /\ trace (snd result)
         = [Called "respond"; Logged e;
            Sending 500 (failure "Internal server error.")]).
Proof.
  intros Hpasses Hprepare Hvalidator Haccepts Hrespond result.
  assert (Hrun : result
                 = internal_error e
                     {| request := rq'; response := res';
                        trace := [Called "respond"] |}).
  { subst result. rewrite (handler_validates rq route respond session) by assumption.
    unfold try_catch. rewrite bind_run.
    rewrite (validate_accepts validators _ validator) by assumption.
    unfold await. cbn [request response trace entered] in *.
    rewrite Hrespond. reflexivity. }
  rewrite Hrun. unfold internal_error, mbind, M_bind, emit, get_response.
  cbn [request response trace app].
  split; [| split].
  - intros Hended. rewrite Hended. reflexivity.
  - intros Hopen Hsent. rewrite Hopen. cbn [negb]. unfold return_.
    rewrite send_after_headers by exact Hsent. split; reflexivity.
  - intros Hopen Hunsent. rewrite Hopen. cbn [negb]. unfold return_, send.
    cbn [request response trace].
    destruct (send_writes_one_json_response res' 500
                (failure "Internal server error.") Hunsent Hopen)
      as (head & Hsend & _).
    rewrite Hsend. cbn [fst snd response trace Response.wire app].
    split; [reflexivity |]. split; [| reflexivity].
    exists head. reflexivity.
Qed.

(** X11.  Line 108 as written: when [prepare] settles without having ended
    the response, the handler returns at once.  Nothing is validated,
    [respond] is not called, and the handler writes nothing: request and
    response stay as [prepare] left them. *)
Theorem open_prepare_ends_the_dispatch
    (rq : Request.t) (route : Route.t) (respond : Route.delegate)
    (session : option Json) (p : Route.delegate)
    (rq' : Request.t) (res' : Response.t) :
  passes routes services rq route respond session ->
  Route.prepare route = Some p ->
  p (request (entered session rq)) Response.fresh services
  = (Route.Fulfilled, rq', res') ->
  Response.writableEnded res' = false ->
  serve (handler routes validators services) rq
  = (Return, {| request := rq'; response := res'; trace := [Called "prepare"] |}).
Proof.
  intros (Hsome & Hrespond & Hcleared & Hheaders & Hwants) Hprepare Hp Hopen.
  rewrite (handler_resolved routes validators services rq route respond Hsome Hrespond).
  unfold try_catch.
  rewrite (stages_reach_body validators services rq route respond session
             Hcleared Hheaders).
  rewrite bind_run, parse_body_skipped
    by (rewrite entered_wants_body; exact Hwants).
  rewrite bind_run. unfold prepare. rewrite Hprepare.
  rewrite bind_run. unfold await. cbn [request response trace entered] in *.
  rewrite Hp. rewrite bind_run. cbn [get_response response].
  rewrite Hopen. reflexivity.
Qed.

End Coverage.

(** *** The compiled schemas, lines 13-22 *)

(** X2.  In a server built by [createApiServer], a request is checked
    against the schema compiled from the [validate] of the very route it
    resolved to in the merged table: on a route without [prepare] and
    without a body to read, a request that schema rejects is answered 400
    [Message is invalid.], and one it accepts goes to [respond].  The
    lookup of the compiled schema never fails for a resolved route. *)
Theorem server_validates_with_the_route_schema {platform : Platform}
    (files : list (gmap string Route.t)) (services : Services)
    (rq : Request.t) (route : Route.t) (respond : Route.delegate)
    (session : option Json) :
  passes (merge_routes files) services rq route respond session ->
  Route.prepare route = None ->
  let w := entered session rq in
  let data := {| data_query := Request.query (request w);
                 data_headers := Request.headers (request w);
                 data_body := Request.body (request w) |} in
  let result := serve (createApiServer files services) rq in
  (ajv_compile (Route.validate route) data = false ->
   result = (Return, failed 400 "Message is invalid." w))
  /\ (ajv_compile (Route.validate route) data = true ->
      result = try_catch (await "respond" respond services) internal_error w).
Proof.
  intros Hpasses Hprepare w data result.
  pose proof Hpasses as (Hsome & _).
  set (compiled := (fun route => ajv_compile (Route.validate route))
                     <$> merge_routes files).
  assert (Hcompiled : compiled !! endpoint_of rq
                      = Some (ajv_compile (Route.validate route))).
  { subst compiled. rewrite lookup_fmap, Hsome. reflexivity. }
  assert (Hrun : result
                 = try_catch
                     (validate compiled (endpoint_of rq) ;;
                      await "respond" respond services)
                     internal_error w).
  { subst result w. unfold createApiServer.
    apply (handler_validates (merge_routes files) compiled services
             rq route respond session Hpasses Hprepare). }
  rewrite Hrun. unfold try_catch. rewrite bind_run.
  split; intros Hdecision.
  - rewrite (validate_rejects compiled _ (ajv_compile (Route.validate route)))
      by (try reflexivity; assumption).
    reflexivity.
  - rewrite (validate_accepts compiled _ (ajv_compile (Route.validate route)))
      by assumption.
    reflexivity.
Qed.

(** *** What the handler adds to the trace *)

Section Traces.

Context {platform : Platform}.

Variable routes : gmap string Route.t.
Variable validators : gmap string (Data -> bool).
Variable services : Services.

Lemma appends_nothing {A : Type} (ok okn : event -> Prop) (m : M A) :
  (forall w, trace (snd (m w)) = trace w) -> appends ok okn m.
Proof.
  intros Hsame w. exists []. rewrite Hsame, app_nil_r.
  split; [reflexivity |]. split; [constructor | intros _ _; constructor].
Qed.

Lemma appends_bind {A B : Type} (ok okn : event -> Prop) (m : M A) (f : A -> M B) :
  appends ok okn m -> (forall a, appends ok okn (f a)) -> appends ok okn (m ≫= f).
Proof.
  intros Hm Hf w. rewrite bind_run.
  destruct (Hm w) as (evs & Htrace & Hok & Hokn).
  destruct (m w) as [[a | | e |] w1]; cbn [fst snd] in *;
    try (exists evs; split; [exact Htrace |]; split; [exact Hok |];
         intros b; discriminate).
  destruct (Hf a w1) as (evs' & Htrace' & Hok' & Hokn').
  exists (evs ++ evs')%list. rewrite Htrace', Htrace, List.app_assoc.
  split; [reflexivity |]. split.
  - apply Forall_app. split; assumption.
  - intros b Hnext. apply Forall_app. split; [apply (Hokn a); reflexivity |].
    apply (Hokn' b), Hnext.
Qed.

Lemma appends_stops {A : Type} (ok okn : event -> Prop) (m : M A) :
  appends ok any_event m -> stops m -> appends ok okn m.
Proof.
  intros Hm Hstops w. destruct (Hm w) as (evs & Htrace & Hok & _).
  exists evs. split; [exact Htrace |]. split; [exact Hok |].
  intros a Hnext. destruct (Hstops w a Hnext).
Qed.

Lemma stops_return {A : Type} (m : M unit) : stops (@return_ A m).
Proof.
  intros w a. unfold return_. destruct (m w) as [[[] | | e |] w1]; discriminate.
Qed.

Lemma stops_bind {A B : Type} (m : M A) (f : A -> M B) :
  (forall a, stops (f a)) -> stops (m ≫= f).
Proof.
  intros Hf w b. rewrite bind_run.
  destruct (m w) as [[a | | e |] w1]; try discriminate. apply Hf.
Qed.

Lemma appends_try_catch {A : Type} (ok okn : event -> Prop) (m : M A)
    (h : error -> M A) :
  appends ok okn m -> (forall e, appends ok any_event (h e)) ->
  (forall e, stops (h e)) ->
  appends ok okn (try_catch m h).
Proof.
  intros Hm Hh Hstops w. unfold try_catch.
  destruct (Hm w) as (evs & Htrace & Hok & Hokn).
  destruct (m w) as [[a | | e |] w1]; cbn [fst snd] in *;
    try (exists evs; split; [exact Htrace |]; split; [exact Hok |];
         first [exact Hokn | intros b; discriminate]).
  destruct (Hh e w1) as (evs' & Htrace' & Hok' & _).
  exists (evs ++ evs')%list. rewrite Htrace', Htrace, List.app_assoc.
  split; [reflexivity |]. split; [apply Forall_app; split; assumption |].
  intros b Hnext. destruct (Hstops e w1 b Hnext).
Qed.

Lemma appends_emit (ok okn : event -> Prop) (e : event) :
  ok e -> okn e -> appends ok okn (emit e).
Proof.
  intros Hok Hokn w. exists [e]. split; [reflexivity |].
  split; [| intros _ _]; constructor; try assumption; constructor.
Qed.

Lemma appends_send (ok : event -> Prop) (status : Z) (message : Json) :
  ok (Sending status message) -> appends ok any_event (send status message).
Proof.
  intros Hok w. exists [Sending status message]. unfold send.
  destruct (Response.send (response w) status message) as [r [e |]];
    (split; [reflexivity |]; split; [| intros _ _];
     constructor; try exact Hok; try exact I; constructor).
Qed.

Lemma appends_return_send {A : Type} (ok okn : event -> Prop) (status : Z)
    (message : Json) :
  ok (Sending status message) -> appends ok okn (@return_ A (send status message)).
Proof.
  intros Hok. apply appends_stops; [| apply stops_return].
  intros w. destruct (appends_send ok status message Hok w) as (evs & Htrace & Hevs & _).
  exists evs. unfold return_.
  destruct (send status message w) as [[[] | | e |] w1]; cbn [fst snd] in *;
    (split; [exact Htrace |]; split; [exact Hevs |];
     intros a _; apply Forall_forall; intros; exact I).
Qed.

Lemma appends_await (ok okn : event -> Prop) (name : string) (d : Route.delegate) :
  ok (Called name) -> okn (Called name) -> appends ok okn (await name d services).
Proof.
  intros Hok Hokn w. exists [Called name]. unfold await.
  destruct (d (request w) (response w) services) as [[[| e |] rq] res];
    (split; [reflexivity |]; split; [| intros _ _];
     constructor; try assumption; constructor).
Qed.

Lemma appends_listener {A : Type} (ok okn : event -> Prop) (m : M A) :
  appends ok okn m -> (forall e, ok (Uncaught e)) -> appends ok okn (listener m).
Proof.
  intros Hm Huncaught w. unfold listener.
  destruct (Hm w) as (evs & Htrace & Hok & Hokn).
  destruct (m w) as [[a | | e |] w1]; cbn [fst snd] in *;
    try (exists evs; split; [exact Htrace |]; split; [exact Hok |];
         first [exact Hokn | intros b; discriminate]).
  exists (evs ++ [Uncaught e])%list. rewrite bind_run. unfold emit, suspend.
  cbn [fst snd trace]. rewrite Htrace, List.app_assoc.
  split; [reflexivity |]. split; [| intros b; discriminate].
  apply Forall_app. split; [exact Hok |]. constructor; [apply Huncaught | constructor].
Qed.

Lemma appends_authenticate (ok okn : event -> Prop) (route : Route.t) :
  allows_sends ok -> appends ok okn (authenticate services route).
Proof.
  intros Hsends. unfold authenticate.
  destruct (Route.authenticate route); [| apply appends_nothing; reflexivity].
  apply appends_bind; [apply appends_nothing; reflexivity |]. intros rq.
  destruct (cookie_parse (cookie_header rq) !! "token") as [[| c token] |];
    try (apply appends_return_send, Hsends; cbn; auto 10).
  apply appends_try_catch.
  - apply appends_bind.
    + apply appends_nothing. intros w.
      destruct (jwt_verify (String c token) (jwtSecret services)); reflexivity.
    + intros session. apply appends_nothing. reflexivity.
  - intros e. apply appends_return_send, Hsends. cbn. auto 10.
  - intros e. apply stops_return.
Qed.

Lemma appends_set_headers (ok okn : event -> Prop) (route : Route.t) :
  appends ok okn (set_headers route).
Proof.
  apply appends_nothing. intros w. unfold set_headers.
  destruct (Route.headers route); reflexivity.
Qed.

Lemma appends_receive (ok okn : event -> Prop) (limit : Z)
    (incoming : list Request.stream_event) :
  allows_sends ok -> allows_reading ok okn ->
  forall size parts, appends ok okn (receive limit size parts incoming).
Proof.
  intros Hsends (Hl & Hln & Hpushed & Hdestroyed & Huncaught).
  induction incoming as [| [part | | e] rest IH]; intros size parts; cbn [receive].
  - apply appends_nothing. reflexivity.
  - destruct (limit <? size + Buffer_byteLength part).
    + apply appends_stops.
      * apply appends_bind.
        -- apply appends_listener; [| exact Huncaught].
           apply appends_bind.
           ++ apply appends_send, Hsends. cbn. auto 10.
           ++ intros _. apply appends_emit; [apply Hdestroyed | exact I].
        -- intros _. apply appends_nothing. intros w.
           destruct destroy_emits_error; reflexivity.
      * apply stops_bind. intros _ w a.
        destruct destroy_emits_error; discriminate.
    + apply appends_bind; [| intros _; apply IH].
      apply appends_listener; [| exact Huncaught].
      apply appends_emit; apply Hpushed.
  - apply appends_listener; [| exact Huncaught].
    apply appends_nothing. intros w.
    destruct (JSON_parse (Buffer_concat parts)); reflexivity.
  - apply appends_nothing. reflexivity.
Qed.

Lemma appends_ingest (ok okn : event -> Prop) (route : Route.t) :
  allows_sends ok -> allows_reading ok okn -> appends ok okn (ingest route).
Proof.
  intros Hsends Hreading. unfold ingest.
  apply appends_bind; [apply appends_nothing; reflexivity |]. intros rq.
  apply appends_try_catch.
  - destruct (content_length_exceeds _ _).
    + apply appends_return_send, Hsends. cbn. auto 10.
    + apply appends_bind; [| intros body; apply appends_nothing; reflexivity].
      apply appends_bind.
      * apply appends_emit; apply Hreading.
      * intros _. apply appends_receive; assumption.
  - intros e. apply appends_return_send, Hsends. cbn. auto 10.
  - intros e. apply stops_return.
Qed.

Lemma appends_parse_body (ok okn : event -> Prop) (route : Route.t) :
  allows_sends ok -> allows_reading ok okn -> appends ok okn (parse_body route).
Proof.
  intros Hsends Hreading. unfold parse_body.
  apply appends_bind; [apply appends_nothing; reflexivity |]. intros rq.
  destruct (wants_body route rq); [| apply appends_nothing; reflexivity].
  destruct (ContentType.test_header _).
  - apply appends_return_send, Hsends. cbn. auto 10.
  - apply appends_ingest; assumption.
Qed.

Lemma appends_prepare (ok okn : event -> Prop) (route : Route.t) :
  ok (Called "prepare") -> okn (Called "prepare") ->
  appends ok okn (prepare services route).
Proof.
  intros Hok Hokn. unfold prepare.
  destruct (Route.prepare route) as [d |]; [| apply appends_nothing; reflexivity].
  apply appends_bind; [apply appends_await; assumption |]. intros _.
  apply appends_bind; [apply appends_nothing; reflexivity |]. intros res.
  apply appends_nothing. intros w. destruct (Response.writableEnded res); reflexivity.
Qed.

Lemma appends_validate (ok okn : event -> Prop) (endpoint : string) :
  allows_sends ok -> appends ok okn (validate validators endpoint).
Proof.
  intros Hsends. unfold validate.
  apply appends_bind; [apply appends_nothing; reflexivity |]. intros rq.
  destruct (validators !! endpoint) as [validator |];
    [| apply appends_nothing; reflexivity].
  destruct (validator _); cbn [negb]; [apply appends_nothing; reflexivity |].
  apply appends_return_send, Hsends. cbn. auto 10.
Qed.

Lemma appends_internal_error (ok okn : event -> Prop) (e : error) :
  ok (Sending 500 (failure "Internal server error.")) ->
  ok (Logged e) -> okn (Logged e) ->
  appends ok okn (internal_error e).
Proof.
  intros Hsend Hok Hokn. unfold internal_error.
  apply appends_bind; [apply appends_emit; assumption |]. intros _.
  apply appends_bind; [apply appends_nothing; reflexivity |]. intros res.
  destruct (Response.writableEnded res); cbn [negb];
    [apply appends_nothing; reflexivity |].
  apply appends_return_send, Hsend.
Qed.

Lemma appends_try_catch_through {A : Type} (ok : event -> Prop) (m : M A)
    (h : error -> M A) :
  appends ok ok m -> (forall e, appends ok ok (h e)) -> appends ok ok (try_catch m h).
Proof.
  intros Hm Hh w. unfold try_catch.
  destruct (Hm w) as (evs & Htrace & Hok & _).
  destruct (m w) as [[a | | e |] w1]; cbn [fst snd] in *;
    try (exists evs; split; [exact Htrace |]; split; [exact Hok |];
         intros; exact Hok).
  destruct (Hh e w1) as (evs' & Htrace' & Hok' & _).
  exists (evs ++ evs')%list. rewrite Htrace', Htrace, List.app_assoc.
  split; [reflexivity |].
  split; [| intros _ _]; apply Forall_app; split; assumption.
Qed.

Lemma appends_handler (ok : event -> Prop) :
  allows_sends ok -> allows_reading ok ok ->
  ok (Called "prepare") -> ok (Called "respond") -> (forall e, ok (Logged e)) ->
  appends ok ok (handler routes validators services).
Proof.
  intros Hsends Hreading Hprepare Hrespond Hlogged. unfold handler.
  apply appends_try_catch_through.
  - apply appends_bind; [apply appends_nothing; reflexivity |]. intros rq.
    destruct (url_parse (Request.url rq)) as [pathname query].
    apply appends_bind; [apply appends_nothing; reflexivity |]. intros _.
    destruct (routes !! _) as [route |];
      [| apply appends_return_send, Hsends; cbn; auto 10].
    destruct (Route.respond route) as [respond |];
      [| apply appends_return_send, Hsends; cbn; auto 10].
    unfold stages.
    apply appends_bind; [apply appends_authenticate, Hsends |]. intros _.
    apply appends_bind; [apply appends_set_headers |]. intros _.
    apply appends_bind; [apply appends_parse_body; assumption |]. intros _.
    apply appends_bind; [apply appends_prepare; assumption |]. intros _.
    apply appends_bind; [apply appends_validate, Hsends |]. intros _.
    apply appends_await; assumption.
  - intros e. apply appends_internal_error; try apply Hlogged.
    apply Hsends. cbn. auto 10.
Qed.

(** *** Around the call of [respond] *)

Lemma on_the_way_not_respond (e : event) : on_the_way e -> not_respond e.
Proof. destruct e; cbn; intros H; try discriminate. congruence. Qed.

Lemma aftermath_not_respond (e : event) : aftermath e -> not_respond e.
Proof. destruct e; cbn; intros H; try discriminate. destruct H. Qed.

Lemma heads_stops (m : M unit) :
  appends not_respond any_event m -> heads_for_respond m.
Proof.
  intros Hm w Hw. left. destruct (Hm w) as (evs & -> & Hok & _).
  apply Forall_app. split; [| exact Hok].
  eapply Forall_impl; [exact Hw | exact on_the_way_not_respond].
Qed.

Lemma heads_bind {A : Type} (m : M A) (k : A -> M unit) :
  appends not_respond on_the_way m -> (forall a, heads_for_respond (k a)) ->
  heads_for_respond (m ≫= k).
Proof.
  intros Hm Hk w Hw. rewrite bind_run.
  destruct (Hm w) as (evs & Htrace & Hok & Hokn).
  destruct (m w) as [[a | | e |] w1]; cbn [fst snd] in *;
    try (left; rewrite Htrace; apply Forall_app; split; [| exact Hok];
         eapply Forall_impl; [exact Hw | exact on_the_way_not_respond]).
  apply Hk. rewrite Htrace. apply Forall_app. split; [exact Hw |].
  apply (Hokn a). reflexivity.
Qed.

Lemma heads_await (d : Route.delegate) :
  heads_for_respond (await "respond" d services).
Proof.
  intros w Hw. right. exists (trace w). split; [| exact Hw].
  unfold await. destruct (d (request w) (response w) services) as [[[| e |] rq] res];
    reflexivity.
Qed.

Lemma sends_not_respond : allows_sends not_respond.
Proof. intros status text _. discriminate. Qed.

Lemma reading_on_the_way : allows_reading not_respond on_the_way.
Proof.
  repeat split; try discriminate; try exact I; intros; discriminate.
Qed.

Lemma heads_stages (endpoint : string) (route : Route.t) (respond : Route.delegate) :
  heads_for_respond (stages validators services endpoint route respond).
Proof.
  unfold stages.
  apply heads_bind; [apply appends_authenticate, sends_not_respond |]. intros _.
  apply heads_bind; [apply appends_set_headers |]. intros _.
  apply heads_bind;
    [apply appends_parse_body; [apply sends_not_respond | apply reading_on_the_way] |].
  intros _.
  apply heads_bind; [apply appends_prepare; discriminate |]. intros _.
  apply heads_bind; [apply appends_validate, sends_not_respond |]. intros _.
  apply heads_await.
Qed.

(** X12.  However a request is served, [respond] is called at most once,
    and only as the last stage: before the call the trace holds no [send]
    of the handler and no other call of [respond]; after it, only what the
    outermost [catch] does, which is the logged error and the [send] of
    500 "Internal server error.". *)
Theorem respond_is_the_last_stage (rq : Request.t) :
  around_respond (trace (snd (serve (handler routes validators services) rq))).
Proof.
  unfold serve, handler.
  set (w0 := {| request := rq; response := Response.fresh; trace := [] |}).
  match goal with |- context [try_catch ?m _] => set (inner := m) end.
  assert (Hinner : heads_for_respond inner).
  { subst inner.
    apply heads_bind; [apply appends_nothing; reflexivity |]. intros rq0.
    destruct (url_parse (Request.url rq0)) as [pathname query].
    apply heads_bind; [apply appends_nothing; reflexivity |]. intros _.
    destruct (routes !! _) as [route |];
      [| apply heads_stops, appends_return_send; discriminate].
    destruct (Route.respond route) as [respond |];
      [| apply heads_stops, appends_return_send; discriminate].
    apply heads_stages. }
  specialize (Hinner w0 (List.Forall_nil _)).
  unfold try_catch.
  destruct (inner w0) as [[[] | | e |] w1]; cbn [fst snd] in *;
    try (destruct Hinner as [Hnone | (before & Htrace & Hbefore)];
         [left; exact Hnone |
          right; exists before, []; split; [exact Htrace |];
          split; [exact Hbefore | constructor]]).
  destruct (appends_internal_error aftermath aftermath e) with (w := w1)
    as (evs & Htrace' & Hevs & _); try exact I; [split; reflexivity |].
  rewrite Htrace'.
  destruct Hinner as [Hnone | (before & Htrace & Hbefore)].
  - left. apply Forall_app. split; [exact Hnone |].
    eapply Forall_impl; [exact Hevs | exact aftermath_not_respond].
  - right. exists before, evs. rewrite Htrace, <- List.app_assoc.
    split; [reflexivity |]. split; assumption.
Qed.

(** X14.  Every [send] the handler itself performs, on any request and
    any route table, carries one of the seven failure messages with its
    status; the handler never sends a success, which only a delegate
    does. *)
Theorem handler_sends_only_failures (rq : Request.t) :
  Forall failure_only (trace (snd (serve (handler routes validators services) rq))).
Proof.
  unfold serve.
  destruct (appends_handler failure_only) with
    (w := {| request := rq; response := Response.fresh; trace := [] |})
    as (evs & -> & Hevs & _); try exact I; try exact Hevs.
  - intros status text Hin. exists text. split; [exact Hin | reflexivity].
  - repeat split; exact I.
  - intros e. exact I.
Qed.

(** *** Routes that want no body *)

Lemma authenticate_method (route : Route.t) (w : world) :
  Request.method (request (snd (authenticate services route w)))
  = Request.method (request w).
Proof.
  unfold authenticate. destruct (Route.authenticate route); [| reflexivity].
  rewrite bind_run. cbn [get_request].
  assert (Hsend : forall status message,
             Request.method
               (request (snd (@return_ unit (send status message) w)))
             = Request.method (request w)).
  { intros status message. unfold return_, send.
    destruct (Response.send (response w) status message) as [r [e |]]; reflexivity. }
  destruct (cookie_parse (cookie_header (request w)) !! "token") as [[| c token] |];
    try apply Hsend.
  unfold try_catch. rewrite bind_run.
  destruct (jwt_verify (String c token) (jwtSecret services)) as [e | session];
    cbn [call throw]; [apply Hsend | reflexivity].
Qed.

(** X13.  When the route of a request wants no body from it ([json] unset,
    and [accept] declared or the method GET), or no route answers it, the
    handler attaches no listener to the request: nothing is read from the
    stream, the stream is not destroyed, and no exception is left uncaught,
    whatever the request carries and however it is answered. *)
Theorem bodyless_request_is_never_read (rq : Request.t) :
  (forall route, routes !! endpoint_of rq = Some route -> wants_body route rq = false) ->
  Forall unread (trace (snd (serve (handler routes validators services) rq))).
Proof.
  intros Hwants.
  destruct (routes !! endpoint_of rq) as [route |] eqn:Hroute;
    [| rewrite handler_unresolved by (left; exact Hroute);
       repeat constructor].
  destruct (Route.respond route) as [respond |] eqn:Hrespond;
    [| rewrite handler_unresolved by (right; exists route; split; assumption);
       repeat constructor].
  specialize (Hwants route eq_refl).
  rewrite (handler_resolved routes validators services rq route respond Hroute Hrespond).
  assert (Hsends : allows_sends unread) by (intros status text _; exact I).
  assert (Hstages : exists evs,
             trace (snd (stages validators services (endpoint_of rq) route respond
                           (located rq))) = evs
             /\ Forall unread evs).
  { unfold stages. rewrite bind_run.
    pose proof (authenticate_method route (located rq)) as Hmethod.
    destruct (appends_authenticate unread unread route Hsends (located rq))
      as (evs1 & Htrace1 & Hevs1 & _).
    destruct (authenticate services route (located rq)) as [[[] | | e |] w1];
      cbn [fst snd] in *; try (eexists; split; [exact Htrace1 | exact Hevs1]).
    rewrite bind_run.
    assert (Hheaders : set_headers route w1 = (Next tt, w1)
                       \/ exists e, set_headers route w1 = (Throw e, w1)).
    { unfold set_headers. destruct (Route.headers route);
        [right; eexists; reflexivity | left; reflexivity]. }
    destruct Hheaders as [-> | (e & ->)];
      [| eexists; split; [exact Htrace1 | exact Hevs1]].
    rewrite bind_run, parse_body_skipped
      by (unfold wants_body in *; rewrite Hmethod; exact Hwants).
    assert (Hrest : appends unread unread
                      (prepare services route ;;
                       validate validators (endpoint_of rq) ;;
                       await "respond" respond services)).
    { apply appends_bind; [apply appends_prepare; exact I |]. intros _.
      apply appends_bind; [apply appends_validate, Hsends |]. intros _.
      apply appends_await; exact I. }
    destruct (Hrest w1) as (evs & Htrace & Hevs & _).
    eexists. split; [exact Htrace |]. rewrite Htrace1.
    apply Forall_app. split; assumption. }
  destruct Hstages as (evs & Htrace & Hevs).
  unfold try_catch.
  destruct (stages validators services (endpoint_of rq) route respond (located rq))
    as [[[] | | e |] w1]; cbn [fst snd] in *; try (rewrite Htrace; exact Hevs).
  destruct (appends_internal_error unread unread e) with (w := w1)
    as (evs' & -> & Hevs' & _); try exact I.
  rewrite Htrace. apply Forall_app. split; assumption.
Qed.

End Traces.

(** *** The properties above on the sample server *)

Lemma table_is_the_file : Sample.table = Sample.routes.
Proof. unfold Sample.table, merge_routes. cbn [foldl]. apply (right_id ∅ (∪)). Qed.

Lemma orderly_respond_ok : orderly Sample.respond_ok.
Proof.
  intros rq res services Hsingle. unfold Sample.respond_ok.
  pose proof (single_send res 200 (JObj [("success", JStr ":)")]) Hsingle) as Hsent.
  destruct (Response.send res 200 _) as [r [e |]]; exact Hsent.
Qed.

Lemma orderly_prepare_page : orderly Sample.prepare_page.
Proof.
  intros rq res services Hsingle. unfold Sample.prepare_page.
  destruct (Sample.has_field "page" (Request.query rq)); [exact Hsingle |].
  pose proof (single_send res 400 (failure "Page was not a number.") Hsingle) as Hsent.
  destruct (Response.send res 400 _) as [r [e |]]; exact Hsent.
Qed.

Lemma orderly_prepare_nothing : orderly Sample.prepare_nothing.
Proof. intros rq res services Hsingle. exact Hsingle. Qed.

Lemma sample_delegates_are_orderly (key : string) (route : Route.t) :
  Sample.table !! key = Some route ->
  (forall d, Route.respond route = Some d -> orderly d)
  /\ (forall d, Route.prepare route = Some d -> orderly d).
Proof.
  rewrite table_is_the_file. unfold Sample.routes. intros Hroute.
  repeat (apply lookup_insert_Some in Hroute as [[_ <-] | [_ Hroute]];
          [split; intros d [= <-];
           first [exact orderly_respond_ok | exact orderly_prepare_page
                 | exact orderly_prepare_nothing] |]).
  apply lookup_singleton_Some in Hroute as [_ <-].
  split; intros d [= <-];
    first [exact orderly_respond_ok | exact orderly_prepare_page
          | exact orderly_prepare_nothing].
Qed.

Lemma handler_writes_at_most_once_witness :
  (length (Response.wire (response (snd (serve
     (handler (platform := Sample.node true) Sample.table Sample.validators
        Sample.services) Sample.streamed_11)))) <= 1)%nat.
Proof.
  apply (handler_writes_at_most_once (platform := Sample.node true)
           Sample.table Sample.validators Sample.services Sample.streamed_11).
  exact sample_delegates_are_orderly.
Defined.

Lemma send_writes_one_json_response_witness :
  exists head,
    Response.send Response.fresh 200 (JObj [("success", JStr ":)")])
    = ({| Response.statusCode := 200; Response.headers := head;
          Response.headersSent := true; Response.writableEnded := true;
          Response.wire :=
            [Response.Written 200 head (stringify (JObj [("success", JStr ":)")]))] |},
       None)
    /\ head !! "content-type"
       = Some ("Content-Type", Response.HStr "application/json; charset=utf-8")
    /\ head !! "content-length"
       = Some ("Content-Length",
               Response.HNum (byteLength (stringify (JObj [("success", JStr ":)")]))))
    /\ (forall name, name <> "content-type" -> name <> "content-length" ->
                     head !! name = Response.headers Response.fresh !! name).
Proof.
  apply (send_writes_one_json_response Response.fresh 200
           (JObj [("success", JStr ":)")])); reflexivity.
Defined.




Lemma verified_session_reaches_respond_witness :
  exists w,
    serve (Sample.server true) Cases.signed_in
    = try_catch (await "respond" Sample.respond_ok Sample.services) internal_error w
    /\ Request.session (request w) = Some (JObj [("sub", JStr "alice")])
    /\ Request.pathname (request w) = Some "/important"
    /\ Request.query (request w) = Some (JObj [])
    /\ Request.headers (request w) = Request.headers Cases.signed_in
    /\ response w = Response.fresh
    /\ trace w = [].
Proof.
  apply (verified_session_reaches_respond (platform := Sample.node true)
           Sample.table Sample.validators Sample.services
           Cases.signed_in Sample.important Sample.respond_ok
           "signed.by.s3cret" (JObj [("sub", JStr "alice")]) (Sample.ajv_compile None)).
  - vm_compute. reflexivity.
  - reflexivity.
  - reflexivity.
  - vm_compute. reflexivity.
  - discriminate.
  - reflexivity.
  - reflexivity.
  - reflexivity.
  - reflexivity.
  - vm_compute. reflexivity.
  - reflexivity.
Defined.

Lemma rejected_respond_is_caught_witness :
  let result :=
    serve (handler (platform := Sample.node true) Cases.table Cases.validators
             Sample.services) Cases.to_broken in
  fst result = Return
  /\ (exists head,
        Response.wire (response (snd result))
        = [Response.Written 500 head (failure_text "Internal server error.")])
  /\ trace (snd result)
     = [Called "respond"; Logged (Error "Error" "boom");
        Sending 500 (failure "Internal server error.")].
Proof.
  refine (proj2 (proj2 (rejected_respond_is_caught (platform := Sample.node true)
           Cases.table Cases.validators Sample.services
           Cases.to_broken Cases.broken Cases.respond_throws None
           (Sample.ajv_compile None) (Error "Error" "boom")
           (request (entered (platform := Sample.node true) None Cases.to_broken))
           Response.fresh _ _ _ _ _)) _ _).
  - split; [vm_compute; reflexivity |].
    split; [reflexivity |].
    split; [apply cleared_open; reflexivity |].
    split; reflexivity.
  - reflexivity.
  - vm_compute. reflexivity.
  - reflexivity.
  - reflexivity.
  - reflexivity.
  - reflexivity.
Defined.

Lemma open_prepare_ends_the_dispatch_witness :
  serve (Sample.server true) Sample.to_quiet
  = (Return, {| request := request (entered (platform := Sample.node true)
                                      None Sample.to_quiet);
                response := Response.fresh;
                trace := [Called "prepare"] |}).
Proof.
  apply (open_prepare_ends_the_dispatch (platform := Sample.node true)
           Sample.table Sample.validators Sample.services
           Sample.to_quiet Sample.quiet Sample.respond_ok None
           Sample.prepare_nothing).
  - split; [vm_compute; reflexivity |].
    split; [reflexivity |].
    split; [apply cleared_open; reflexivity |].
    split; reflexivity.
  - reflexivity.
  - reflexivity.
  - reflexivity.
Defined.

Lemma server_validates_with_the_route_schema_witness :
  serve (Sample.server true) Cases.to_foo
  = try_catch (await "respond" Sample.respond_ok Sample.services) internal_error
      (entered (platform := Sample.node true) None Cases.to_foo).
Proof.
  refine (proj2 (server_validates_with_the_route_schema (platform := Sample.node true)
           [Sample.routes] Sample.services
           Cases.to_foo Sample.plain Sample.respond_ok None _ _) _).
  - split; [vm_compute; reflexivity |].
    split; [reflexivity |].
    split; [apply cleared_open; reflexivity |].
    split; reflexivity.
  - reflexivity.
  - reflexivity.
Defined.

Lemma bodyless_request_is_never_read_witness :
  Forall unread
    (trace (snd (serve (handler (platform := Sample.node true)
                          Sample.table Sample.validators Sample.services)
                   Cases.to_foo))).
Proof.
  apply (bodyless_request_is_never_read (platform := Sample.node true)
           Sample.table Sample.validators Sample.services Cases.to_foo).
  intros route Hroute.
  assert (Hplain : Sample.table !! endpoint_of (platform := Sample.node true) Cases.to_foo
                   = Some Sample.plain) by (vm_compute; reflexivity).
  rewrite Hplain in Hroute. injection Hroute as <-. reflexivity.
Defined.
